(** * Alphabetical app grid: the synchronisation controller of [extension.js]

    The development has two parts.

    - [AppGridHelper]: the comparator and the folder re-sorting engine.  The
      file [lib/AppGridHelper.js] that [extension.js] imports is not among the
      sources, so [compareItems] and [reorderFolderContents] are modelled
      from the specification; [reloadAppGrid] is only observed as a call.
    - [Extension]: a shallow embedding of [extension.js] itself.  The
      extension and the host (signal emitters, the GLib main loop, the
      settings stores, the grid display object) live in one [World]; every
      method of the source is a computation in a small state-and-exception
      monad over that world. *)

From Stdlib Require Import ZArith QArith Ascii String Lia.
From stdpp Require Import base option list gmap strings.
Close Scope Q_scope.

(** ** Part 1.  The comparator and reordering engine *)

Module AppGridHelper.

(** Modelled from the spec: the data model of the missing
    [lib/AppGridHelper.js] (grid items, their kinds, the folder position
    setting). *)
Inductive Kind := App | Folder.

(** Modelled from the spec: a grid item has a stable identifier, a kind and
    the name used for the alphabetical comparison.  A missing name is
    [None]. *)
Record GridItem := {
  item_id : string;
  kind : Kind;
  displayName : option string
}.

(** Modelled from the spec: the three values of the ordering policy. *)
Inductive FolderOrderPosition := First | Last | Default.

(** *** Case-insensitive lexicographic comparison *)

Definition lowerAscii (c : ascii) : ascii :=
  let n := nat_of_ascii c in
  if (65 <=? n)%nat && (n <=? 90)%nat then ascii_of_nat (n + 32) else c.

Fixpoint foldCase (s : string) : string :=
  match s with
  | EmptyString => EmptyString
  | String c s' => String (lowerAscii c) (foldCase s')
  end.

Definition signOf (c : comparison) : Z :=
  match c with Lt => -1 | Eq => 0 | Gt => 1 end.

(** Lexicographic comparison by character code; a proper prefix sorts
    first. *)
Fixpoint compareCodes (s t : string) : comparison :=
  match s, t with
  | EmptyString, EmptyString => Eq
  | EmptyString, String _ _ => Lt
  | String _ _, EmptyString => Gt
  | String a s', String b t' =>
      match N.compare (N_of_ascii a) (N_of_ascii b) with
      | Eq => compareCodes s' t'
      | c => c
      end
  end.

(** Modelled from the spec: the case-insensitive lexicographic comparison
    of two display names that [compareItems] and [reorderFolderContents] of
    the missing [lib/AppGridHelper.js] are specified with.  A missing name
    sorts after every named item. *)
Definition compareNames (a b : option string) : Z :=
  match a, b with
  | Some x, Some y => signOf (compareCodes (foldCase x) (foldCase y))
  | Some _, None => -1
  | None, Some _ => 1
  | None, None => 0
  end.

(** *** Pinned folder rank *)

(** Modelled from the spec: the position of [i] in the pinned sequence; an
    identifier that is not listed gets the position after all listed
    ones. *)
Fixpoint pinRank (pinnedFolderIds : list string) (i : string) : nat :=
  match pinnedFolderIds with
  | [] => 0
  | p :: ps => if String.eqb p i then 0 else S (pinRank ps i)
  end.

(** Modelled from the spec: [compareItems] of the missing
    [lib/AppGridHelper.js].  Folder against app is forced by [First] and
    [Last] and left to the names by [Default]; two folders are ordered by
    pinned rank and then by name; two apps by name. *)
Definition compareItems (a b : GridItem)
    (folderOrderPosition : FolderOrderPosition)
    (pinnedFolderIds : list string) : Z :=
  match kind a, kind b with
  | Folder, App =>
      match folderOrderPosition with
      | First => -1
      | Last => 1
      | Default => compareNames (displayName a) (displayName b)
      end
  | App, Folder =>
      match folderOrderPosition with
      | First => 1
      | Last => -1
      | Default => compareNames (displayName a) (displayName b)
      end
  | Folder, Folder =>
      match Nat.compare (pinRank pinnedFolderIds (item_id a))
                        (pinRank pinnedFolderIds (item_id b)) with
      | Eq => compareNames (displayName a) (displayName b)
      | c => signOf c
      end
  | App, App => compareNames (displayName a) (displayName b)
  end.

(** *** Folder contents *)

(** Modelled from the spec: a folder with its sort-contents switch and its
    stored child order. *)
Record FolderState := {
  folder : GridItem;
  sortContents : bool;
  children : list GridItem
}.

Definition nameLe (x y : GridItem) : bool :=
  (compareNames (displayName x) (displayName y) <=? 0)%Z.

(** Modelled from the spec: the sort of the children is stable.  [x] stood
    before every element of [l], so it goes in front of the first element
    that is not smaller. *)
Fixpoint insertByName (x : GridItem) (l : list GridItem) : list GridItem :=
  match l with
  | [] => [x]
  | y :: l' => if nameLe x y then x :: y :: l' else y :: insertByName x l'
  end.

Fixpoint sortByName (l : list GridItem) : list GridItem :=
  match l with
  | [] => []
  | x :: l' => insertByName x (sortByName l')
  end.

Definition sortFolder (f : FolderState) : FolderState :=
  if sortContents f
  then {| folder := folder f; sortContents := true;
          children := sortByName (children f) |}
  else f.

(** Modelled from the spec: [reorderFolderContents] of the missing
    [lib/AppGridHelper.js].  Every folder whose sort-contents switch is on
    has its stored child order replaced by the stable case-insensitive
    sort of its children by display name. *)
Definition reorderFolderContents (store : list FolderState)
    : list FolderState :=
  map sortFolder store.

(** Children in non-decreasing name order, neighbour by neighbour. *)
Fixpoint nameSorted (l : list GridItem) : bool :=
  match l with
  | [] => true
  | x :: l' =>
      match l' with
      | [] => true
      | y :: _ => nameLe x y && nameSorted l'
      end
  end.

(** Items for concrete checks. *)
Definition folderItem (i n : string) : GridItem :=
  {| item_id := i; kind := Folder; displayName := Some n |}.
Definition appItem (i n : string) : GridItem :=
  {| item_id := i; kind := App; displayName := Some n |}.

End AppGridHelper.

(** ** Part 2.  [extension.js] *)

Module Extension.
Import AppGridHelper.

(** *** Values of the host interface *)

(** What a handle field of the controller can hold: never assigned,
    [null], or a number returned by [connect] or [timeout_add]. *)
Inductive Handle := Undefined | Null | Id (n : nat).

(** The JavaScript test [h != null]: false for [undefined] and [null]. *)
Definition notNull (h : Handle) : bool :=
  match h with Id _ => true | _ => false end.

(** The objects the controller connects to: [_shellSettings],
    [Main.overview], [_extensionSettings], [Shell.AppSystem.get_default()],
    [_folderSettings] and [Controls._stateAdjustment]. *)
Inductive Emitter :=
| ShellSettings | Overview | ExtensionSettings | AppSystem
| FolderSettings | StateAdjustment.

(** ['changed::app-picker-layout'], ['item-drag-end'],
    ['changed::favorite-apps'], ['changed'], ['installed-changed'],
    ['changed::folder-children'] and ['notify::value']. *)
Inductive Signal :=
| ChangedAppPickerLayout | ItemDragEnd | ChangedFavoriteApps | Changed
| InstalledChanged | ChangedFolderChildren | NotifyValue.

Global Instance Emitter_eq_dec : EqDecision Emitter.
Proof. solve_decision. Defined.
Global Instance Signal_eq_dec : EqDecision Signal.
Proof. solve_decision. Defined.

(** The closures of the source, each with the instance it captured as
    [this]. *)
Inductive Callback :=
| CbReorder (this : nat) (logText : string)
| CbSettingsChanged (this : nat)
| CbReorderOnDisplay (this : nat)
| CbReorderTimeout (this : nat).

(** The two methods of the grid display object that are overridden and the
    functions that can sit in those slots. *)
Inductive Method := M_compareItems | M_redisplay.
Inductive Impl :=
| HostCompareItems | HostRedisplay | PatchedCompareItems | ReloadAppGrid.

(** What an observer of the shell sees the extension do.  [Logged] carries
    the message passed to [logMessage]; the wall-clock stamp that [log]
    prefixes is left out. *)
Inductive Obs :=
| Logged (message : string)
| Invoked (f : Impl)
| ReorderedFolderContents.

Global Instance Impl_eq_dec : EqDecision Impl.
Proof. solve_decision. Defined.
Global Instance Obs_eq_dec : EqDecision Obs.
Proof. solve_decision. Defined.

Inductive Error :=
| TypeError
| StaleHandler (e : Emitter)
| StaleSource.

Record Connection := {
  conn_emitter : Emitter;
  conn_id : nat;
  conn_signal : Signal;
  conn_callback : Callback
}.

(** How the host answers a teardown request for a handle it does not
    hold: it raises, or it ignores the request. *)
Record HostPolicy := {
  staleDisconnectRaises : Emitter -> bool;
  staleSourceRemoveRaises : bool
}.

(** [OverviewControls.ControlsState.APP_GRID].  The state value is a number
    that passes through intermediate values during a transition; rationals
    stand for it, and the only operation on it is the comparison with
    [APP_GRID]. *)
Definition APP_GRID : Q := 2%Q.
Definition SOURCE_REMOVE : bool := false.

(** *** The controller object *)

(** The fields of an [AppGridExtension] instance.  The three settings
    objects it holds are views of the stores kept in the [World];
    [_injectionManager] is the saved-method table of its
    [InjectionManager]. *)
Record AppGridExtension := mkAppGridExtension {
  _injectionManager : list (Method * Impl);
  _currentlyUpdating : bool;
  _reorderGridTimeoutId : Handle;
  _reorderSignal : Handle;
  _dragReorderSignal : Handle;
  _favouriteAppsSignal : Handle;
  _settingsChangedSignal : Handle;
  _installedAppsChangedSignal : Handle;
  _foldersChangedSignal : Handle;
  _reorderOnDisplaySignal : Handle
}.

Definition set_injectionManager v c :=
  mkAppGridExtension v (_currentlyUpdating c) (_reorderGridTimeoutId c)
    (_reorderSignal c) (_dragReorderSignal c) (_favouriteAppsSignal c)
    (_settingsChangedSignal c) (_installedAppsChangedSignal c)
    (_foldersChangedSignal c) (_reorderOnDisplaySignal c).
Definition set_currentlyUpdating v c :=
  mkAppGridExtension (_injectionManager c) v (_reorderGridTimeoutId c)
    (_reorderSignal c) (_dragReorderSignal c) (_favouriteAppsSignal c)
    (_settingsChangedSignal c) (_installedAppsChangedSignal c)
    (_foldersChangedSignal c) (_reorderOnDisplaySignal c).
Definition set_reorderGridTimeoutId v c :=
  mkAppGridExtension (_injectionManager c) (_currentlyUpdating c) v
    (_reorderSignal c) (_dragReorderSignal c) (_favouriteAppsSignal c)
    (_settingsChangedSignal c) (_installedAppsChangedSignal c)
    (_foldersChangedSignal c) (_reorderOnDisplaySignal c).
Definition set_reorderSignal v c :=
  mkAppGridExtension (_injectionManager c) (_currentlyUpdating c)
    (_reorderGridTimeoutId c) v (_dragReorderSignal c)
    (_favouriteAppsSignal c) (_settingsChangedSignal c)
    (_installedAppsChangedSignal c) (_foldersChangedSignal c)
    (_reorderOnDisplaySignal c).
Definition set_dragReorderSignal v c :=
  mkAppGridExtension (_injectionManager c) (_currentlyUpdating c)
    (_reorderGridTimeoutId c) (_reorderSignal c) v
    (_favouriteAppsSignal c) (_settingsChangedSignal c)
    (_installedAppsChangedSignal c) (_foldersChangedSignal c)
    (_reorderOnDisplaySignal c).
Definition set_favouriteAppsSignal v c :=
  mkAppGridExtension (_injectionManager c) (_currentlyUpdating c)
    (_reorderGridTimeoutId c) (_reorderSignal c) (_dragReorderSignal c) v
    (_settingsChangedSignal c) (_installedAppsChangedSignal c)
    (_foldersChangedSignal c) (_reorderOnDisplaySignal c).
Definition set_settingsChangedSignal v c :=
  mkAppGridExtension (_injectionManager c) (_currentlyUpdating c)
    (_reorderGridTimeoutId c) (_reorderSignal c) (_dragReorderSignal c)
    (_favouriteAppsSignal c) v (_installedAppsChangedSignal c)
    (_foldersChangedSignal c) (_reorderOnDisplaySignal c).
Definition set_installedAppsChangedSignal v c :=
  mkAppGridExtension (_injectionManager c) (_currentlyUpdating c)
    (_reorderGridTimeoutId c) (_reorderSignal c) (_dragReorderSignal c)
    (_favouriteAppsSignal c) (_settingsChangedSignal c) v
    (_foldersChangedSignal c) (_reorderOnDisplaySignal c).
Definition set_foldersChangedSignal v c :=
  mkAppGridExtension (_injectionManager c) (_currentlyUpdating c)
    (_reorderGridTimeoutId c) (_reorderSignal c) (_dragReorderSignal c)
    (_favouriteAppsSignal c) (_settingsChangedSignal c)
    (_installedAppsChangedSignal c) v (_reorderOnDisplaySignal c).
Definition set_reorderOnDisplaySignal v c :=
  mkAppGridExtension (_injectionManager c) (_currentlyUpdating c)
    (_reorderGridTimeoutId c) (_reorderSignal c) (_dragReorderSignal c)
    (_favouriteAppsSignal c) (_settingsChangedSignal c)
    (_installedAppsChangedSignal c) (_foldersChangedSignal c) v.

(** *** The world: extension, settings stores and host *)

Record World := mkWorld {
  (* the extension *)
  gridReorder : option nat;             (* ExtensionManager._gridReorder *)
  heap : gmap nat AppGridExtension;     (* the instances ever created *)
  nextObject : nat;
  loggingEnabled : bool;                (* the module variable *)
  (* the settings stores *)
  logging_enabled : bool;
  sort_folder_contents : bool;
  folder_order_position : string;
  folder_children : list string;
  folderStore : list FolderState;
  (* the host *)
  policy : HostPolicy;                  (* its answer to stale handles *)
  updatingPages : bool;                 (* AppDisplay._pageManager *)
  stateValue : Q;                       (* Controls._stateAdjustment.value *)
  appDisplay_compareItems : Impl;
  appDisplay_redisplay : Impl;
  handlers : list Connection;
  nextHandler : nat;
  sources : gmap nat (nat * Callback);  (* pending GLib timeout sources *)
  nextSource : nat;
  trace : list Obs
}.

(** Field updates of the world. *)
Definition set_gridReorder v w :=
  mkWorld v (heap w) (nextObject w) (loggingEnabled w) (logging_enabled w)
    (sort_folder_contents w) (folder_order_position w) (folder_children w)
    (folderStore w) (policy w) (updatingPages w) (stateValue w)
    (appDisplay_compareItems w) (appDisplay_redisplay w) (handlers w)
    (nextHandler w) (sources w) (nextSource w) (trace w).
Definition set_heap v w :=
  mkWorld (gridReorder w) v (nextObject w) (loggingEnabled w)
    (logging_enabled w) (sort_folder_contents w) (folder_order_position w)
    (folder_children w) (folderStore w) (policy w) (updatingPages w)
    (stateValue w) (appDisplay_compareItems w) (appDisplay_redisplay w)
    (handlers w) (nextHandler w) (sources w) (nextSource w) (trace w).
Definition set_nextObject v w :=
  mkWorld (gridReorder w) (heap w) v (loggingEnabled w) (logging_enabled
    w) (sort_folder_contents w) (folder_order_position w) (folder_children
    w) (folderStore w) (policy w) (updatingPages w) (stateValue w)
    (appDisplay_compareItems w) (appDisplay_redisplay w) (handlers w)
    (nextHandler w) (sources w) (nextSource w) (trace w).
Definition set_loggingEnabled v w :=
  mkWorld (gridReorder w) (heap w) (nextObject w) v (logging_enabled w)
    (sort_folder_contents w) (folder_order_position w) (folder_children w)
    (folderStore w) (policy w) (updatingPages w) (stateValue w)
    (appDisplay_compareItems w) (appDisplay_redisplay w) (handlers w)
    (nextHandler w) (sources w) (nextSource w) (trace w).
Definition set_logging_enabled v w :=
  mkWorld (gridReorder w) (heap w) (nextObject w) (loggingEnabled w) v
    (sort_folder_contents w) (folder_order_position w) (folder_children w)
    (folderStore w) (policy w) (updatingPages w) (stateValue w)
    (appDisplay_compareItems w) (appDisplay_redisplay w) (handlers w)
    (nextHandler w) (sources w) (nextSource w) (trace w).
Definition set_sort_folder_contents v w :=
  mkWorld (gridReorder w) (heap w) (nextObject w) (loggingEnabled w)
    (logging_enabled w) v (folder_order_position w) (folder_children w)
    (folderStore w) (policy w) (updatingPages w) (stateValue w)
    (appDisplay_compareItems w) (appDisplay_redisplay w) (handlers w)
    (nextHandler w) (sources w) (nextSource w) (trace w).
Definition set_folder_order_position v w :=
  mkWorld (gridReorder w) (heap w) (nextObject w) (loggingEnabled w)
    (logging_enabled w) (sort_folder_contents w) v (folder_children w)
    (folderStore w) (policy w) (updatingPages w) (stateValue w)
    (appDisplay_compareItems w) (appDisplay_redisplay w) (handlers w)
    (nextHandler w) (sources w) (nextSource w) (trace w).
Definition set_folder_children v w :=
  mkWorld (gridReorder w) (heap w) (nextObject w) (loggingEnabled w)
    (logging_enabled w) (sort_folder_contents w) (folder_order_position w)
    v (folderStore w) (policy w) (updatingPages w) (stateValue w)
    (appDisplay_compareItems w) (appDisplay_redisplay w) (handlers w)
    (nextHandler w) (sources w) (nextSource w) (trace w).
Definition set_folderStore v w :=
  mkWorld (gridReorder w) (heap w) (nextObject w) (loggingEnabled w)
    (logging_enabled w) (sort_folder_contents w) (folder_order_position w)
    (folder_children w) v (policy w) (updatingPages w) (stateValue w)
    (appDisplay_compareItems w) (appDisplay_redisplay w) (handlers w)
    (nextHandler w) (sources w) (nextSource w) (trace w).
Definition set_updatingPages v w :=
  mkWorld (gridReorder w) (heap w) (nextObject w) (loggingEnabled w)
    (logging_enabled w) (sort_folder_contents w) (folder_order_position w)
    (folder_children w) (folderStore w) (policy w) v (stateValue w)
    (appDisplay_compareItems w) (appDisplay_redisplay w) (handlers w)
    (nextHandler w) (sources w) (nextSource w) (trace w).
Definition set_stateValue v w :=
  mkWorld (gridReorder w) (heap w) (nextObject w) (loggingEnabled w)
    (logging_enabled w) (sort_folder_contents w) (folder_order_position w)
    (folder_children w) (folderStore w) (policy w) (updatingPages w) v
    (appDisplay_compareItems w) (appDisplay_redisplay w) (handlers w)
    (nextHandler w) (sources w) (nextSource w) (trace w).
Definition set_appDisplay_compareItems v w :=
  mkWorld (gridReorder w) (heap w) (nextObject w) (loggingEnabled w)
    (logging_enabled w) (sort_folder_contents w) (folder_order_position w)
    (folder_children w) (folderStore w) (policy w) (updatingPages w)
    (stateValue w) v (appDisplay_redisplay w) (handlers w) (nextHandler w)
    (sources w) (nextSource w) (trace w).
Definition set_appDisplay_redisplay v w :=
  mkWorld (gridReorder w) (heap w) (nextObject w) (loggingEnabled w)
    (logging_enabled w) (sort_folder_contents w) (folder_order_position w)
    (folder_children w) (folderStore w) (policy w) (updatingPages w)
    (stateValue w) (appDisplay_compareItems w) v (handlers w) (nextHandler
    w) (sources w) (nextSource w) (trace w).
Definition set_handlers v w :=
  mkWorld (gridReorder w) (heap w) (nextObject w) (loggingEnabled w)
    (logging_enabled w) (sort_folder_contents w) (folder_order_position w)
    (folder_children w) (folderStore w) (policy w) (updatingPages w)
    (stateValue w) (appDisplay_compareItems w) (appDisplay_redisplay w) v
    (nextHandler w) (sources w) (nextSource w) (trace w).
Definition set_nextHandler v w :=
  mkWorld (gridReorder w) (heap w) (nextObject w) (loggingEnabled w)
    (logging_enabled w) (sort_folder_contents w) (folder_order_position w)
    (folder_children w) (folderStore w) (policy w) (updatingPages w)
    (stateValue w) (appDisplay_compareItems w) (appDisplay_redisplay w)
    (handlers w) v (sources w) (nextSource w) (trace w).
Definition set_sources v w :=
  mkWorld (gridReorder w) (heap w) (nextObject w) (loggingEnabled w)
    (logging_enabled w) (sort_folder_contents w) (folder_order_position w)
    (folder_children w) (folderStore w) (policy w) (updatingPages w)
    (stateValue w) (appDisplay_compareItems w) (appDisplay_redisplay w)
    (handlers w) (nextHandler w) v (nextSource w) (trace w).
Definition set_nextSource v w :=
  mkWorld (gridReorder w) (heap w) (nextObject w) (loggingEnabled w)
    (logging_enabled w) (sort_folder_contents w) (folder_order_position w)
    (folder_children w) (folderStore w) (policy w) (updatingPages w)
    (stateValue w) (appDisplay_compareItems w) (appDisplay_redisplay w)
    (handlers w) (nextHandler w) (sources w) v (trace w).
Definition set_trace v w :=
  mkWorld (gridReorder w) (heap w) (nextObject w) (loggingEnabled w)
    (logging_enabled w) (sort_folder_contents w) (folder_order_position w)
    (folder_children w) (folderStore w) (policy w) (updatingPages w)
    (stateValue w) (appDisplay_compareItems w) (appDisplay_redisplay w)
    (handlers w) (nextHandler w) (sources w) (nextSource w) v.

(** *** A state-and-exception monad over the world *)

Inductive Outcome (A : Type) :=
| Ok (a : A) (w : World)
| Raise (e : Error) (w : World).
Arguments Ok {A} a w.
Arguments Raise {A} e w.

Definition M (A : Type) := World -> Outcome A.

Definition ret {A} (a : A) : M A := fun w => Ok a w.
Definition bind {A B} (m : M A) (k : A -> M B) : M B :=
  fun w => match m w with
           | Ok a w' => k a w'
           | Raise e w' => Raise e w'
           end.
Definition gets {A} (f : World -> A) : M A := fun w => Ok (f w) w.
Definition modify (f : World -> World) : M unit := fun w => Ok tt (f w).
Definition raise {A} (e : Error) : M A := fun w => Raise e w.

Declare Scope ext_scope.
Delimit Scope ext_scope with ext.
Notation "x <- m ;; k" := (bind m (fun x => k))
  (at level 100, m at next level, right associativity) : ext_scope.
Notation "m ;; k" := (bind m (fun _ => k))
  (at level 100, right associativity) : ext_scope.
Open Scope ext_scope.

Definition succeeds {A} (o : Outcome A) : bool :=
  match o with Ok _ _ => true | Raise _ _ => false end.

Definition worldOf {A} (o : Outcome A) : World :=
  match o with Ok _ w => w | Raise _ w => w end.

Definition errorOf {A} (o : Outcome A) : option Error :=
  match o with Ok _ _ => None | Raise e _ => Some e end.

(** *** Host operations *)

(** [logMessage]: writes only while the module variable is set. *)
Definition logMessage (message : string) : M unit := fun w =>
  if loggingEnabled w
  then Ok tt (set_trace (trace w ++ [Logged message]) w)
  else Ok tt w.

(** Reading and assigning fields of [this]. *)
Definition getThis (this : nat) : M AppGridExtension := fun w =>
  match heap w !! this with
  | Some c => Ok c w
  | None => Raise TypeError w
  end.

Definition modifyThis (this : nat)
    (f : AppGridExtension -> AppGridExtension) : M unit := fun w =>
  match heap w !! this with
  | Some c => Ok tt (set_heap (<[this := f c]> (heap w)) w)
  | None => Raise TypeError w
  end.

(** [emitter.connect(signal, callback)]: the handler goes last in the
    emitter's list and gets a fresh number. *)
Definition connect (e : Emitter) (s : Signal) (cb : Callback) : M Handle :=
  fun w =>
    let n := nextHandler w in
    Ok (Id n)
       (set_nextHandler (S n)
          (set_handlers
             (handlers w ++
                [{| conn_emitter := e; conn_id := n;
                    conn_signal := s; conn_callback := cb |}]) w)).

Definition holds (e : Emitter) (n : nat) (c : Connection) : bool :=
  bool_decide (conn_emitter c = e) && (conn_id c =? n).

Definition staleDisconnect (e : Emitter) : M unit := fun w =>
  if staleDisconnectRaises (policy w) e
  then Raise (StaleHandler e) w
  else Ok tt w.

(** [emitter.disconnect(h)]: removes the handler when the emitter holds it;
    otherwise the host's policy decides. *)
Definition disconnect (e : Emitter) (h : Handle) : M unit :=
  match h with
  | Id n =>
      cs <- gets handlers ;;
      if existsb (holds e n) cs
      then modify (set_handlers
                     (List.filter (fun c => negb (holds e n c)) cs))
      else staleDisconnect e
  | _ => staleDisconnect e
  end.

(** [GLib.timeout_add(priority, interval, callback)]. *)
Definition timeout_add (interval : nat) (cb : Callback) : M Handle :=
  fun w =>
    let n := nextSource w in
    Ok (Id n)
       (set_nextSource (S n)
          (set_sources (<[n := (interval, cb)]> (sources w)) w)).

Definition staleSourceRemove : M unit := fun w =>
  if staleSourceRemoveRaises (policy w)
  then Raise StaleSource w
  else Ok tt w.

(** [GLib.Source.remove(h)]. *)
Definition source_remove (h : Handle) : M unit :=
  match h with
  | Id n =>
      ss <- gets sources ;;
      match ss !! n with
      | Some _ => modify (set_sources (delete n ss))
      | None => staleSourceRemove
      end
  | _ => staleSourceRemove
  end.

(** The method slots of [AppDisplay]. *)
Definition getSlot (m : Method) (w : World) : Impl :=
  match m with
  | M_compareItems => appDisplay_compareItems w
  | M_redisplay => appDisplay_redisplay w
  end.

Definition installMethod (m : Method) (f : Impl) (w : World) : World :=
  match m with
  | M_compareItems => set_appDisplay_compareItems f w
  | M_redisplay => set_appDisplay_redisplay f w
  end.

Global Instance Method_eq_dec : EqDecision Method.
Proof. solve_decision. Defined.

(** The saved-method table of an [InjectionManager] is a map: saving a
    method twice keeps one entry. *)
Fixpoint saveMethod (m : Method) (original : Impl)
    (saved : list (Method * Impl)) : list (Method * Impl) :=
  match saved with
  | [] => [(m, original)]
  | (m', o) :: rest =>
      if bool_decide (m' = m) then (m, original) :: rest
      else (m', o) :: saveMethod m original rest
  end.

(** [this._injectionManager.overrideMethod(AppDisplay, m, () => f)]. *)
Definition overrideMethod (this : nat) (m : Method) (f : Impl) : M unit :=
  original <- gets (getSlot m) ;;
  modifyThis this
    (fun c => set_injectionManager
                (saveMethod m original (_injectionManager c)) c) ;;
  modify (installMethod m f).

Definition restoreAll (saved : list (Method * Impl)) (w : World) : World :=
  fold_left (fun w' mo => installMethod (fst mo) (snd mo) w') saved w.

(** [this._injectionManager.clear()]: puts every saved method back and
    empties the table. *)
Definition clear (this : nat) : M unit :=
  c <- getThis this ;;
  modify (restoreAll (_injectionManager c)) ;;
  modifyThis this (set_injectionManager []).

(** [AppDisplay._redisplay()]: whatever sits in the slot is invoked.  The
    grid rebuild itself belongs to the host and is only observed. *)
Definition callRedisplay : M unit := fun w =>
  Ok tt (set_trace (trace w ++ [Invoked (appDisplay_redisplay w)]) w).

(** [AppGridHelper.reorderFolderContents()]. *)
Definition callReorderFolderContents : M unit := fun w =>
  Ok tt (set_trace (trace w ++ [ReorderedFolderContents])
           (set_folderStore (reorderFolderContents (folderStore w)) w)).

(** *** The controller: class [AppGridExtension] *)

Definition readThis {A} (this : nat) (field : AppGridExtension -> A) : M A :=
  c <- getThis this ;; ret (field c).

(** [new AppGridExtension(extensionSettings)]. *)
Definition newAppGridExtension : M nat := fun w =>
  let a := nextObject w in
  Ok a
     (set_nextObject (S a)
        (set_heap
           (<[a := mkAppGridExtension [] false Undefined Undefined Undefined
                     Undefined Undefined Undefined Undefined Undefined]>
              (heap w)) w)).

Definition patchShell (this : nat) : M unit :=
  overrideMethod this M_compareItems PatchedCompareItems ;;
  logMessage "Patched item comparison" ;;
  overrideMethod this M_redisplay ReloadAppGrid ;;
  logMessage "Patched redisplay".

Definition unpatchShell (this : nat) : M unit :=
  clear this ;;
  logMessage "Unpatched item comparison" ;;
  logMessage "Unpatched redisplay".

Definition reorderGrid (this : nat) (logText : string) : M unit :=
  busy <- readThis this _currentlyUpdating ;;
  updating <- gets updatingPages ;;
  if negb busy && negb updating then
    modifyThis this (set_currentlyUpdating true) ;;
    logMessage logText ;;
    sortFolders <- gets sort_folder_contents ;;
    (if sortFolders : bool then
       logMessage "Reordering folder contents" ;;
       callReorderFolderContents
     else ret tt) ;;
    id <- timeout_add 100 (CbReorderTimeout this) ;;
    modifyThis this (set_reorderGridTimeoutId id)
  else ret tt.

Definition _waitForGridReorder (this : nat) : M unit :=
  h <- connect ShellSettings ChangedAppPickerLayout
         (CbReorder this "App grid layout changed, triggering reorder") ;;
  modifyThis this (set_reorderSignal h) ;;
  h' <- connect Overview ItemDragEnd
          (CbReorder this "App movement detected, triggering reorder") ;;
  modifyThis this (set_dragReorderSignal h').

Definition _reorderOnDisplay (this : nat) : M unit :=
  h <- connect StateAdjustment NotifyValue (CbReorderOnDisplay this) ;;
  modifyThis this (set_reorderOnDisplaySignal h).

Definition _waitForFavouritesChange (this : nat) : M unit :=
  h <- connect ShellSettings ChangedFavoriteApps
         (CbReorder this "Favourite apps changed, triggering reorder") ;;
  modifyThis this (set_favouriteAppsSignal h).

Definition _waitForSettingsChange (this : nat) : M unit :=
  h <- connect ExtensionSettings Changed (CbSettingsChanged this) ;;
  modifyThis this (set_settingsChangedSignal h).

Definition _waitForFolderChange (this : nat) : M unit :=
  h <- connect FolderSettings ChangedFolderChildren
         (CbReorder this "Folders changed, triggering reorder") ;;
  modifyThis this (set_foldersChangedSignal h).

Definition _waitForInstalledAppsChange (this : nat) : M unit :=
  h <- connect AppSystem InstalledChanged
         (CbReorder this "Installed apps changed, triggering reorder") ;;
  modifyThis this (set_installedAppsChangedSignal h).

Definition startListeners (this : nat) : M unit :=
  _waitForGridReorder this ;;
  _waitForFavouritesChange this ;;
  _waitForSettingsChange this ;;
  _waitForInstalledAppsChange this ;;
  _waitForFolderChange this ;;
  _reorderOnDisplay this ;;
  logMessage "Connected to listeners".

Definition disconnectListeners (this : nat) : M unit :=
  h1 <- readThis this _reorderSignal ;;
  disconnect ShellSettings h1 ;;
  h2 <- readThis this _dragReorderSignal ;;
  disconnect Overview h2 ;;
  h3 <- readThis this _favouriteAppsSignal ;;
  disconnect ShellSettings h3 ;;
  h4 <- readThis this _settingsChangedSignal ;;
  disconnect ExtensionSettings h4 ;;
  h5 <- readThis this _installedAppsChangedSignal ;;
  disconnect AppSystem h5 ;;
  h6 <- readThis this _foldersChangedSignal ;;
  disconnect FolderSettings h6 ;;
  h7 <- readThis this _reorderOnDisplaySignal ;;
  (if notNull h7 then disconnect StateAdjustment h7 else ret tt) ;;
  t <- readThis this _reorderGridTimeoutId ;;
  (if notNull t then source_remove t else ret tt) ;;
  logMessage "Disconnected from listeners".

(** *** The closures *)

(** Running a callback.  The result is what the main loop looks at for a
    timeout source: [SOURCE_REMOVE] drops the source.  Signal handlers
    return nothing. *)
Definition runCallback (cb : Callback) : M bool :=
  match cb with
  | CbReorder this logText =>
      reorderGrid this logText ;; ret false
  | CbSettingsChanged this =>
      v <- gets logging_enabled ;;
      modify (set_loggingEnabled v) ;;
      reorderGrid this
        "Extension gsettings values changed, triggering reorder" ;;
      ret false
  | CbReorderOnDisplay this =>
      v <- gets stateValue ;;
      (if Qeq_bool v APP_GRID
       then reorderGrid this "App grid opened, triggering reorder"
       else ret tt) ;;
      ret false
  | CbReorderTimeout this =>
      callRedisplay ;;
      modifyThis this (set_currentlyUpdating false) ;;
      modifyThis this (set_reorderGridTimeoutId Null) ;;
      ret SOURCE_REMOVE
  end.

(** *** Class [ExtensionManager] *)

Definition enable : M unit :=
  this <- newAppGridExtension ;;
  modify (set_gridReorder (Some this)) ;;
  v <- gets logging_enabled ;;
  modify (set_loggingEnabled v) ;;
  callRedisplay ;;
  patchShell this ;;
  startListeners this ;;
  reorderGrid this "Reordering app grid".

Definition disable : M unit :=
  r <- gets gridReorder ;;
  match r with
  | None => raise TypeError
  | Some this =>
      disconnectListeners this ;;
      unpatchShell this ;;
      modify (set_gridReorder None)
  end.

(** *** The patched comparator *)

Section Comparator.

(** [AppGridHelper.compareItems] as it is called here, with the raw values
    of the two settings keys, and the comparator the host ships.  Neither is
    part of [extension.js]; both are parameters. *)
Variable helperCompareItems :
  GridItem -> GridItem -> string -> list string -> Z.
Variable hostCompareItems : GridItem -> GridItem -> Z.

(** [_patchedCompareItems(a, b)]: both settings are read when it is called. *)
Definition _patchedCompareItems (w : World) (a b : GridItem) : Z :=
  let folderPosition := folder_order_position w in
  let folderArray := folder_children w in
  helperCompareItems a b folderPosition folderArray.

(** [AppDisplay._compareItems(a, b)] through the slot. *)
Definition callCompareItems (w : World) (a b : GridItem) : option Z :=
  match appDisplay_compareItems w with
  | PatchedCompareItems => Some (_patchedCompareItems w a b)
  | HostCompareItems => Some (hostCompareItems a b)
  | _ => None
  end.

End Comparator.

(** *** The host drives the extension *)

Definition listening (e : Emitter) (s : Signal) (c : Connection) : bool :=
  bool_decide (conn_emitter c = e) && bool_decide (conn_signal c = s).

Fixpoint runAll (cbs : list Callback) : M unit :=
  match cbs with
  | [] => ret tt
  | cb :: rest => runCallback cb ;; runAll rest
  end.

(** Emission of signal [s] by [e]: the handlers connected for it run in
    connection order. *)
Definition emit (e : Emitter) (s : Signal) : M unit := fun w =>
  runAll (map conn_callback (List.filter (listening e s) (handlers w))) w.

(** The main loop dispatches timeout source [n], if it is still there. *)
Definition dispatch (n : nat) : M unit := fun w =>
  match sources w !! n with
  | None => Ok tt w
  | Some (_, cb) =>
      (keep <- runCallback cb ;;
       if keep : bool then ret tt
       else modify (fun w' => set_sources (delete n (sources w')) w')) w
  end.

Inductive ExtensionSetting :=
| LoggingEnabled (b : bool)
| SortFolderContents (b : bool)
| FolderOrderPositionKey (s : string).

Definition writeSetting (k : ExtensionSetting) (w : World) : World :=
  match k with
  | LoggingEnabled b => set_logging_enabled b w
  | SortFolderContents b => set_sort_folder_contents b w
  | FolderOrderPositionKey s => set_folder_order_position s w
  end.

(** What can happen to the extension from outside. *)
Inductive Event :=
| EnableExtension
| DisableExtension
| AppPickerLayoutChanged
| ItemDragEnded
| FavoriteAppsChanged
| ExtensionSettingChanged (k : ExtensionSetting)
| InstalledAppsChanged
| FolderChildrenChanged (l : list string)
| StateValueChanged (v : Q)
| UpdatingPagesChanged (b : bool)
| TimeoutElapsed (n : nat).

Definition step (ev : Event) : M unit :=
  match ev with
  | EnableExtension => enable
  | DisableExtension => disable
  | AppPickerLayoutChanged => emit ShellSettings ChangedAppPickerLayout
  | ItemDragEnded => emit Overview ItemDragEnd
  | FavoriteAppsChanged => emit ShellSettings ChangedFavoriteApps
  | ExtensionSettingChanged k =>
      modify (writeSetting k) ;; emit ExtensionSettings Changed
  | InstalledAppsChanged => emit AppSystem InstalledChanged
  | FolderChildrenChanged l =>
      modify (set_folder_children l) ;;
      emit FolderSettings ChangedFolderChildren
  | StateValueChanged v =>
      modify (set_stateValue v) ;; emit StateAdjustment NotifyValue
  | UpdatingPagesChanged b => modify (set_updatingPages b)
  | TimeoutElapsed n => dispatch n
  end.

Fixpoint run (evs : list Event) : M unit :=
  match evs with
  | [] => ret tt
  | ev :: rest => step ev ;; run rest
  end.

(** The shell enables an extension that is off and disables one that is
    on. *)
Definition allowed (ev : Event) (w : World) : bool :=
  match ev with
  | EnableExtension => negb (bool_decide (is_Some (gridReorder w)))
  | DisableExtension => bool_decide (is_Some (gridReorder w))
  | _ => true
  end.

(** The signal events: everything the controller listens to. *)
Definition isSignal (ev : Event) : bool :=
  match ev with
  | AppPickerLayoutChanged | ItemDragEnded | FavoriteAppsChanged
  | ExtensionSettingChanged _ | InstalledAppsChanged
  | FolderChildrenChanged _ | StateValueChanged _ => true
  | _ => false
  end.

(** The signal events whose handler asks for a reorder. *)
Definition isTrigger (ev : Event) : bool :=
  match ev with
  | StateValueChanged v => Qeq_bool v APP_GRID
  | _ => isSignal ev
  end.

(** A shell in which the extension has never run. *)
Definition Initial (w : World) : Prop :=
  gridReorder w = None /\ heap w = ∅ /\ loggingEnabled w = false /\
  handlers w = [] /\ sources w = ∅ /\
  appDisplay_compareItems w = HostCompareItems /\
  appDisplay_redisplay w = HostRedisplay /\ trace w = [].

Inductive Reachable : World -> Prop :=
| reach_initial w : Initial w -> Reachable w
| reach_step w ev w' :
    Reachable w -> allowed ev w = true -> step ev w = Ok tt w' ->
    Reachable w'.

(** The seven connections [startListeners] makes, in order, when the next
    free handler number is [h]. *)
Definition listeners (this h : nat) : list Connection :=
  [ {| conn_emitter := ShellSettings; conn_id := h;
       conn_signal := ChangedAppPickerLayout;
       conn_callback :=
         CbReorder this "App grid layout changed, triggering reorder" |};
    {| conn_emitter := Overview; conn_id := S h;
       conn_signal := ItemDragEnd;
       conn_callback :=
         CbReorder this "App movement detected, triggering reorder" |};
    {| conn_emitter := ShellSettings; conn_id := S (S h);
       conn_signal := ChangedFavoriteApps;
       conn_callback :=
         CbReorder this "Favourite apps changed, triggering reorder" |};
    {| conn_emitter := ExtensionSettings; conn_id := S (S (S h));
       conn_signal := Changed;
       conn_callback := CbSettingsChanged this |};
    {| conn_emitter := AppSystem; conn_id := S (S (S (S h)));
       conn_signal := InstalledChanged;
       conn_callback :=
         CbReorder this "Installed apps changed, triggering reorder" |};
    {| conn_emitter := FolderSettings; conn_id := S (S (S (S (S h))));
       conn_signal := ChangedFolderChildren;
       conn_callback :=
         CbReorder this "Folders changed, triggering reorder" |};
    {| conn_emitter := StateAdjustment; conn_id := S (S (S (S (S (S h)))));
       conn_signal := NotifyValue;
       conn_callback := CbReorderOnDisplay this |} ].

(** *** Shapes of the world *)

(** What follows is not code of the extension: these definitions describe
    worlds and the results of its methods, for the statements below. *)

(** The saved-method table after [patchShell]. *)
Definition patched : list (Method * Impl) :=
  [(M_compareItems, HostCompareItems); (M_redisplay, HostRedisplay)].

(** An instance that was patched and wired with handler numbers [h] to
    [h + 6]; [busy] is its lock and [t] its timer handle. *)
Definition instance (h : nat) (busy : bool) (t : Handle) : AppGridExtension :=
  mkAppGridExtension patched busy t (Id h) (Id (S h)) (Id (S (S h)))
    (Id (S (S (S h)))) (Id (S (S (S (S h))))) (Id (S (S (S (S (S h))))))
    (Id (S (S (S (S (S (S h))))))).

(** Either a reorder is in flight, with its one timeout source pending, or
    the lock is free and no source is pending. *)
Definition Flight (this : nat) (busy : bool) (t : Handle) (w : World) : Prop :=
  match t with
  | Id n => busy = true /\ sources w = {[ n := (100, CbReorderTimeout this) ]}
  | _ => busy = false /\ sources w = ∅
  end.

Definition Enabled (this : nat) (w : World) : Prop :=
  gridReorder w = Some this /\
  exists h busy t,
    heap w !! this = Some (instance h busy t) /\
    handlers w = listeners this h /\
    appDisplay_compareItems w = PatchedCompareItems /\
    appDisplay_redisplay w = ReloadAppGrid /\
    Flight this busy t w.

Definition Disabled (w : World) : Prop :=
  gridReorder w = None /\ handlers w = [] /\ sources w = ∅ /\
  appDisplay_compareItems w = HostCompareItems /\
  appDisplay_redisplay w = HostRedisplay.

Definition Inv (w : World) : Prop :=
  Disabled w \/ exists this, Enabled this w.

(** Everything of the world except the values of the settings keys, the
    state value and the module's logging flag. *)
Definition frame (w : World) :=
  (gridReorder w, heap w, nextObject w, folderStore w, policy w,
   updatingPages w, appDisplay_compareItems w, appDisplay_redisplay w,
   handlers w, nextHandler w, sources w, nextSource w, trace w).

(** The part of the world that [frame] leaves out. *)
Definition environment (w : World) :=
  (loggingEnabled w, logging_enabled w, sort_folder_contents w,
   folder_order_position w, folder_children w, stateValue w).

(** The world after [logMessage]. *)
Definition logged (message : string) (w : World) : World :=
  if loggingEnabled w then set_trace (trace w ++ [Logged message]) w else w.

(** The world after [reorderGrid] took the lock on instance [c]. *)
Definition started (this : nat) (logText : string) (c : AppGridExtension)
    (w : World) : World :=
  let n := nextSource w in
  let w1 := logged logText w in
  let w2 :=
    if sort_folder_contents w
    then worldOf (callReorderFolderContents
                    (logged "Reordering folder contents" w1))
    else w1 in
  set_heap
    (<[this := set_reorderGridTimeoutId (Id n) (set_currentlyUpdating true c)]>
       (heap w))
    (set_nextSource (S n)
       (set_sources (<[n := (100, CbReorderTimeout this)]> (sources w)) w2)).

(** The world after the timeout closure of instance [c] ran and its source
    was dropped. *)
Definition finished (this n : nat) (c : AppGridExtension) (w : World) : World :=
  set_sources (delete n (sources w))
    (set_heap
       (<[this := set_reorderGridTimeoutId Null
                    (set_currentlyUpdating false c)]>
          (heap w))
       (set_trace (trace w ++ [Invoked (appDisplay_redisplay w)]) w)).

(** The world after [disconnectListeners] on a wired instance. *)
Definition unwired (w : World) : World :=
  logged "Disconnected from listeners" (set_sources ∅ (set_handlers [] w)).

(** The world after [disable()]: instance [c], which was patched and wired,
    is unwired and unpatched and the reference to it is dropped. *)
Definition tornDown (this : nat) (c : AppGridExtension) (w : World) : World :=
  set_gridReorder None
    (logged "Unpatched redisplay"
       (logged "Unpatched item comparison"
          (set_heap (<[this := set_injectionManager [] c]> (heap w))
             (set_appDisplay_redisplay HostRedisplay
                (set_appDisplay_compareItems HostCompareItems
                   (unwired w)))))).

(** The value a signal event carries, written by the host before it emits. *)
Definition hostWrite (ev : Event) (w : World) : World :=
  match ev with
  | ExtensionSettingChanged k => writeSetting k w
  | FolderChildrenChanged l => set_folder_children l w
  | StateValueChanged v => set_stateValue v w
  | _ => w
  end.

(** The world in which the handler of a signal event reaches its call of
    [reorderGrid]: the handler for the extension's own settings has
    refreshed the logging flag by then. *)
Definition arrive (ev : Event) (w : World) : World :=
  match ev with
  | ExtensionSettingChanged _ =>
      set_loggingEnabled (logging_enabled (hostWrite ev w)) (hostWrite ev w)
  | _ => hostWrite ev w
  end.

(** The diagnostic text each handler passes to [reorderGrid]. *)
Definition logTextOf (ev : Event) : string :=
  match ev with
  | AppPickerLayoutChanged => "App grid layout changed, triggering reorder"
  | ItemDragEnded => "App movement detected, triggering reorder"
  | FavoriteAppsChanged => "Favourite apps changed, triggering reorder"
  | ExtensionSettingChanged _ =>
      "Extension gsettings values changed, triggering reorder"
  | InstalledAppsChanged => "Installed apps changed, triggering reorder"
  | FolderChildrenChanged _ => "Folders changed, triggering reorder"
  | StateValueChanged _ => "App grid opened, triggering reorder"
  | _ => ""
  end.

(** Events after which the extension must be as quiet as the shell: signals
    and elapsed timeouts. *)
Definition isTimeout (ev : Event) : bool :=
  match ev with TimeoutElapsed _ => true | _ => false end.

(** The callbacks that run when [e] emits [s] while the connections of
    instance [this] are the only ones. *)
Definition callbacksOf (this : nat) (e : Emitter) (s : Signal)
    : list Callback :=
  match e, s with
  | ShellSettings, ChangedAppPickerLayout =>
      [CbReorder this "App grid layout changed, triggering reorder"]
  | Overview, ItemDragEnd =>
      [CbReorder this "App movement detected, triggering reorder"]
  | ShellSettings, ChangedFavoriteApps =>
      [CbReorder this "Favourite apps changed, triggering reorder"]
  | ExtensionSettings, Changed => [CbSettingsChanged this]
  | AppSystem, InstalledChanged =>
      [CbReorder this "Installed apps changed, triggering reorder"]
  | FolderSettings, ChangedFolderChildren =>
      [CbReorder this "Folders changed, triggering reorder"]
  | StateAdjustment, NotifyValue => [CbReorderOnDisplay this]
  | _, _ => []
  end.

(** How often [reloadAppGrid] was invoked so far. *)
Definition reloads (w : World) : nat :=
  length (List.filter (fun o => bool_decide (o = Invoked ReloadAppGrid))
            (trace w)).

(** *** Concrete shells *)

(** A host whose overview raises when asked to disconnect a handler it does
    not hold, while the other emitters and the main loop ignore such a
    request. *)
Definition overviewRaises : HostPolicy :=
  {| staleDisconnectRaises := fun e => bool_decide (e = Overview);
     staleSourceRemoveRaises := false |}.

(** A shell that has never run the extension, with logging and folder
    sorting switched on and one folder of three apps. *)
Definition freshShell : World :=
  mkWorld None ∅ 0 false true true "default" ["Games"]
    [ {| folder := folderItem "Games" "Games";
         sortContents := true;
         children :=
           [appItem "z" "Zed"; appItem "a" "apple"; appItem "b" "Banana"] |} ]
    overviewRaises false 0%Q HostCompareItems HostRedisplay [] 1 ∅ 1 [].

(** The same shell right after [enable()]: the first reorder is in flight. *)
Definition enabledShell : World := worldOf (enable freshShell).

(** ... and after that reorder's timeout fired: enabled and idle. *)
Definition idleShell : World := worldOf (dispatch 1 enabledShell).

(** The enabled shell after [disable()] ran in the middle of the first
    reorder, and the idle shell while the host updates its pages. *)
Definition tornShell : World := worldOf (disable enabledShell).
Definition updatingShell : World := set_updatingPages true idleShell.

(** *** The transitions in closed form *)

(** The log lines among the observations so far. *)
Definition isLogged (o : Obs) : bool :=
  match o with Logged _ => true | _ => false end.

Definition logs (w : World) : list Obs := List.filter isLogged (trace w).

(** The world in which [enable()] reaches its call of [reorderGrid], when
    the shell was not patched before: a new instance has been created,
    remembered, patched in and wired, the logging flag has been read from
    its key, and the redisplay that precedes the patch went to whatever
    function the slot held. *)
Definition booted (w : World) : World :=
  let this := nextObject w in
  let h := nextHandler w in
  logged "Connected to listeners"
    (logged "Patched redisplay"
       (logged "Patched item comparison"
          (set_trace (trace w ++ [Invoked (appDisplay_redisplay w)])
             (set_loggingEnabled (logging_enabled w)
                (set_gridReorder (Some this)
                   (set_nextObject (S this)
                      (set_heap
                         (<[this := instance h false Undefined]> (heap w))
                         (set_appDisplay_compareItems PatchedCompareItems
                            (set_appDisplay_redisplay ReloadAppGrid
                               (set_handlers
                                  (handlers w ++ listeners this h)
                                  (set_nextHandler
                                     (S (S (S (S (S (S (S h)))))))
                                     w))))))))))).

(** The world after [enable()]: the first reorder is started unless the
    host is updating its pages. *)
Definition enabling (w : World) : World :=
  if updatingPages w then booted w
  else started (nextObject w) "Reordering app grid"
         (instance (nextHandler w) false Undefined) (booted w).

(** What one event does to a world, case by case: the transitions the
    code makes from the worlds the shell can reach. *)
Inductive Moves : Event -> World -> World -> Prop :=
| mv_off ev w :
    gridReorder w = None -> isSignal ev || isTimeout ev = true ->
    Moves ev w (hostWrite ev w)
| mv_drop ev w this c :
    gridReorder w = Some this -> isSignal ev = true ->
    heap w !! this = Some c ->
    isTrigger ev = false \/ _currentlyUpdating c = true \/
      updatingPages w = true ->
    Moves ev w (arrive ev w)
| mv_start ev w this c :
    gridReorder w = Some this -> isSignal ev = true ->
    isTrigger ev = true ->
    heap w !! this = Some c -> _currentlyUpdating c = false ->
    updatingPages w = false ->
    Moves ev w (started this (logTextOf ev) c (arrive ev w))
| mv_stale n w :
    sources w !! n = None -> Moves (TimeoutElapsed n) w w
| mv_finish n w this c :
    gridReorder w = Some this -> heap w !! this = Some c ->
    sources w !! n = Some (100, CbReorderTimeout this) ->
    appDisplay_redisplay w = ReloadAppGrid ->
    Moves (TimeoutElapsed n) w (finished this n c w)
| mv_disable w this c :
    gridReorder w = Some this -> heap w !! this = Some c ->
    Moves DisableExtension w (tornDown this c w)
| mv_pages b w :
    Moves (UpdatingPagesChanged b) w (set_updatingPages b w)
| mv_enable w :
    gridReorder w = None -> appDisplay_redisplay w = HostRedisplay ->
    Moves EnableExtension w (enabling w).

End Extension.

(** * Properties *)

Import AppGridHelper Extension.

(** ** The comparator *)

Section ComparatorFacts.

Lemma compareCodes_antisym s : forall t,
  compareCodes t s = CompOpp (compareCodes s t).
Proof.
  induction s as [|a s IH]; intros [|b t]; simpl; try reflexivity.
  rewrite (N.compare_antisym (N_of_ascii b) (N_of_ascii a)).
  destruct (N_of_ascii b ?= N_of_ascii a)%N; simpl; auto.
Qed.

Lemma compareNames_antisym a b : compareNames b a = (- compareNames a b)%Z.
Proof.
  destruct a as [x|], b as [y|]; simpl; try reflexivity.
  rewrite (compareCodes_antisym (foldCase x) (foldCase y)).
  destruct (compareCodes (foldCase x) (foldCase y)); reflexivity.
Qed.

(** C5.  With [A] a folder and [B] an app, [compareItems] is negative when
    folders go first and positive when they go last, whatever the names and
    the pinned sequence.  Two folders are ordered by their position in
    [pinnedFolderIds], and by the case-insensitive comparison of their names
    when the positions tie. *)
Theorem compareItems_folder_position (A B : GridItem)
    (pinnedFolderIds : list string) :
  kind A = Folder -> kind B = App ->
  (compareItems A B First pinnedFolderIds < 0)%Z /\
  (compareItems A B Last pinnedFolderIds > 0)%Z /\
  forall (F G : GridItem) (pos : FolderOrderPosition),
    kind F = Folder -> kind G = Folder ->
    let rF := pinRank pinnedFolderIds (item_id F) in
    let rG := pinRank pinnedFolderIds (item_id G) in
    (rF < rG -> compareItems F G pos pinnedFolderIds = (-1)%Z) /\
    (rG < rF -> compareItems F G pos pinnedFolderIds = 1%Z) /\
    (rF = rG ->
     compareItems F G pos pinnedFolderIds =
     compareNames (displayName F) (displayName G)).
Proof.
  intros HA HB. unfold compareItems. rewrite HA, HB.
  split; [lia|]. split; [lia|].
  intros F G pos HF HG. cbv zeta. rewrite HF, HG.
  repeat split; intros Hr.
  - apply Nat.compare_lt_iff in Hr. rewrite Hr. reflexivity.
  - apply Nat.compare_gt_iff in Hr. rewrite Hr. reflexivity.
  - apply Nat.compare_eq_iff in Hr. rewrite Hr. reflexivity.
Qed.

Lemma compareItems_folder_position_witness :
  kind (folderItem "Games" "Zebra games") = Folder /\
  kind (appItem "a.desktop" "Apple") = App /\
  (compareItems (folderItem "Games" "Zebra games")
     (appItem "a.desktop" "Apple") First ["Games"] < 0)%Z /\
  (compareItems (folderItem "Games" "Zebra games")
     (appItem "a.desktop" "Apple") Last ["Games"] > 0)%Z.
Proof.
  destruct (compareItems_folder_position (folderItem "Games" "Zebra games")
              (appItem "a.desktop" "Apple") ["Games"] eq_refl eq_refl)
    as (H1 & H2 & _).
  split; [reflexivity|]. split; [reflexivity|]. split; assumption.
Defined.

(** The scenario of the three items "Zed", "Abc Folder" and "Apple": with
    folders first and with the default position alike, the folder precedes
    "Apple", which precedes "Zed". *)
Example three_items_scenario :
  forall pos, pos = First \/ pos = Default ->
  compareItems (folderItem "f" "Abc Folder") (appItem "a" "Apple") pos [] =
    (-1)%Z /\
  compareItems (appItem "a" "Apple") (appItem "z" "Zed") pos [] = (-1)%Z /\
  compareItems (folderItem "f" "Abc Folder") (appItem "z" "Zed") pos [] =
    (-1)%Z.
Proof. intros pos [->| ->]; repeat split. Qed.

End ComparatorFacts.

(** ** Folder contents *)

Section FolderFacts.

Lemma nameLe_total x y : nameLe x y = false -> nameLe y x = true.
Proof.
  unfold nameLe. rewrite (compareNames_antisym (displayName x) (displayName y)).
  intros H. apply Z.leb_gt in H. apply Z.leb_le. lia.
Qed.

Lemma insertByName_sorted x l :
  nameSorted l = true -> nameSorted (insertByName x l) = true.
Proof.
  induction l as [|y l IH]; intros Hs; [reflexivity|].
  cbn [insertByName]. destruct (nameLe x y) eqn:Hxy.
  - change (nameLe x y && nameSorted (y :: l) = true).
    rewrite Hxy, Hs. reflexivity.
  - destruct l as [|z l].
    + cbn. rewrite (nameLe_total _ _ Hxy). reflexivity.
    + cbn [nameSorted] in Hs. apply andb_prop in Hs as [Hyz Hzl].
      specialize (IH Hzl). cbn [insertByName] in *.
      destruct (nameLe x z).
      * change (nameLe y x && nameSorted (x :: z :: l) = true).
        rewrite (nameLe_total _ _ Hxy), IH. reflexivity.
      * change (nameLe y z && nameSorted (z :: insertByName x l) = true).
        rewrite Hyz, IH. reflexivity.
Qed.

Lemma sortByName_sorted l : nameSorted (sortByName l) = true.
Proof.
  induction l as [|x l IH]; [reflexivity|].
  cbn [sortByName]. apply insertByName_sorted, IH.
Qed.

(** A stable sort leaves children that are already in order where they
    are. *)
Lemma sortByName_fixed l : nameSorted l = true -> sortByName l = l.
Proof.
  induction l as [|x l IH]; intros Hs; [reflexivity|].
  cbn [sortByName]. destruct l as [|y l]; [reflexivity|].
  cbn [nameSorted] in Hs. apply andb_prop in Hs as [Hxy Hyl].
  rewrite (IH Hyl). cbn [insertByName]. rewrite Hxy. reflexivity.
Qed.

Lemma sortFolder_idem f : sortFolder (sortFolder f) = sortFolder f.
Proof.
  unfold sortFolder. destruct (sortContents f) eqn:Hf; cbn.
  - rewrite (sortByName_fixed _ (sortByName_sorted (children f))). reflexivity.
  - rewrite Hf. reflexivity.
Qed.

(** C7.  [reorderFolderContents] is idempotent: applied to its own result
    it stores the same child order in every folder as one application, and
    so does every further run over unchanged children. *)
Theorem reorderFolderContents_idempotent (store : list FolderState) :
  reorderFolderContents (reorderFolderContents store) =
    reorderFolderContents store /\
  forall n : nat,
    Nat.iter (S n) reorderFolderContents store = reorderFolderContents store.
Proof.
  assert (Hidem : forall st,
    reorderFolderContents (reorderFolderContents st) =
    reorderFolderContents st).
  { intros st. unfold reorderFolderContents.
    rewrite map_map. apply map_ext. intros f. apply sortFolder_idem. }
  split; [apply Hidem|].
  induction n as [|n IH]; [reflexivity|].
  change (reorderFolderContents (Nat.iter (S n) reorderFolderContents store) =
          reorderFolderContents store).
  rewrite IH. apply Hidem.
Qed.

End FolderFacts.

(** ** The controller *)

Section ControllerFacts.

(** Symbolic execution of the monadic code: unfold the operations and the
    field updates, and resolve reads of [this] after writes to it. *)
Ltac exec_core := cbv beta iota zeta delta
  [bind ret gets modify raise enable disable newAppGridExtension patchShell
   unpatchShell startListeners disconnectListeners reorderGrid
   _waitForGridReorder _reorderOnDisplay _waitForFavouritesChange
   _waitForSettingsChange _waitForFolderChange _waitForInstalledAppsChange
   overrideMethod clear restoreAll fold_left installMethod getSlot saveMethod
   callRedisplay callReorderFolderContents
   readThis getThis modifyThis connect timeout_add logMessage logged
   runCallback runAll step writeSetting worldOf started finished
   unwired tornDown
   hostWrite arrive frame
   negb andb notNull fst snd SOURCE_REMOVE
   set_gridReorder set_heap set_nextObject set_loggingEnabled
   set_logging_enabled set_sort_folder_contents set_folder_order_position
   set_folder_children set_folderStore set_updatingPages set_stateValue
   set_appDisplay_compareItems set_appDisplay_redisplay set_handlers
   set_nextHandler set_sources set_nextSource set_trace
   set_injectionManager set_currentlyUpdating set_reorderGridTimeoutId
   set_reorderSignal set_dragReorderSignal set_favouriteAppsSignal
   set_settingsChangedSignal set_installedAppsChangedSignal
   set_foldersChangedSignal set_reorderOnDisplaySignal
   gridReorder heap nextObject loggingEnabled logging_enabled
   sort_folder_contents folder_order_position folder_children folderStore
   policy updatingPages stateValue appDisplay_compareItems
   appDisplay_redisplay handlers nextHandler sources nextSource trace
   _injectionManager _currentlyUpdating _reorderGridTimeoutId _reorderSignal
   _dragReorderSignal _favouriteAppsSignal _settingsChangedSignal
   _installedAppsChangedSignal _foldersChangedSignal
   _reorderOnDisplaySignal].

Ltac exec_hyps := cbv beta iota zeta delta
  [frame instance patched
   gridReorder heap nextObject loggingEnabled logging_enabled
   sort_folder_contents folder_order_position folder_children folderStore
   policy updatingPages stateValue appDisplay_compareItems
   appDisplay_redisplay handlers nextHandler sources nextSource trace
   _injectionManager _currentlyUpdating _reorderGridTimeoutId _reorderSignal
   _dragReorderSignal _favouriteAppsSignal _settingsChangedSignal
   _installedAppsChangedSignal _foldersChangedSignal
   _reorderOnDisplaySignal] in *.

Ltac exec :=
  repeat first
    [ progress exec_core
    | rewrite lookup_insert_eq
    | rewrite insert_insert_eq ].

(** *** The monad *)

Lemma bind_Ok {A B} (m : M A) (k : A -> M B) w a w1 :
  m w = Ok a w1 -> bind m k w = k a w1.
Proof. intros H. unfold bind. rewrite H. reflexivity. Qed.

Lemma logMessage_logged message w :
  logMessage message w = Ok tt (logged message w).
Proof. unfold logMessage, logged. destruct (loggingEnabled w); reflexivity. Qed.

Lemma readThis_Some {A} w this c (f : AppGridExtension -> A) :
  heap w !! this = Some c -> readThis this f w = Ok (f c) w.
Proof.
  intros H. unfold readThis, getThis, bind, ret. rewrite H. reflexivity.
Qed.

Lemma modifyThis_Some w this c f :
  heap w !! this = Some c ->
  modifyThis this f w = Ok tt (set_heap (<[this := f c]> (heap w)) w).
Proof. intros H. unfold modifyThis. rewrite H. reflexivity. Qed.

(** *** [reorderGrid] *)

Lemma reorderGrid_busy w this c logText :
  heap w !! this = Some c ->
  _currentlyUpdating c = true \/ updatingPages w = true ->
  reorderGrid this logText w = Ok tt w.
Proof.
  intros Hc Hb. unfold reorderGrid.
  rewrite (bind_Ok _ _ _ _ _ (readThis_Some _ _ _ _ Hc)).
  unfold bind, gets, ret.
  destruct Hb as [-> | ->]; [reflexivity|].
  rewrite andb_false_r. reflexivity.
Qed.

Lemma reorderGrid_idle w this c logText :
  heap w !! this = Some c ->
  _currentlyUpdating c = false -> updatingPages w = false ->
  reorderGrid this logText w = Ok tt (started this logText c w).
Proof.
  intros Hc Hb Hu. unfold reorderGrid.
  rewrite (bind_Ok _ _ _ _ _ (readThis_Some _ _ _ _ Hc)).
  unfold bind at 1, gets at 1. rewrite Hb, Hu.
  change (negb false && negb false) with true. cbv iota.
  rewrite (bind_Ok _ _ _ _ _ (modifyThis_Some _ _ _ _ Hc)).
  destruct w, loggingEnabled0, sort_folder_contents0; exec; reflexivity.
Qed.

(** *** The timeout closure *)

Lemma dispatch_absent w n : sources w !! n = None -> dispatch n w = Ok tt w.
Proof. intros H. unfold dispatch. rewrite H. reflexivity. Qed.

Lemma dispatch_fires w n i this c :
  sources w !! n = Some (i, CbReorderTimeout this) ->
  heap w !! this = Some c ->
  dispatch n w = Ok tt (finished this n c w).
Proof.
  intros Hn Hc. unfold dispatch. rewrite Hn.
  destruct w. exec_hyps. exec. rewrite Hc. exec. reflexivity.
Qed.

(** *** Signals *)

Lemma emit_nil w e s : handlers w = [] -> emit e s w = Ok tt w.
Proof. intros H. unfold emit. rewrite H. reflexivity. Qed.

Lemma filter_later e n rest :
  Forall (fun c => n < conn_id c) rest ->
  List.filter (fun c => negb (holds e n c)) rest = rest.
Proof.
  induction 1 as [|c rest Hc _ IH]; [reflexivity|].
  cbn [List.filter]. unfold holds at 1.
  destruct (Nat.eqb_spec (conn_id c) n) as [Heq|_]; [lia|].
  rewrite andb_false_r. cbn [negb]. rewrite IH. reflexivity.
Qed.

(** Disconnecting the handler at the head of the list, all later handlers
    having larger numbers, removes exactly that handler. *)
Lemma disconnect_head w e n s cb rest :
  handlers w =
    {| conn_emitter := e; conn_id := n; conn_signal := s;
       conn_callback := cb |} :: rest ->
  Forall (fun c => n < conn_id c) rest ->
  disconnect e (Id n) w = Ok tt (set_handlers rest w).
Proof.
  intros Hh Hrest. unfold disconnect, bind, gets, modify. rewrite Hh.
  assert (Hhead : holds e n
            {| conn_emitter := e; conn_id := n; conn_signal := s;
               conn_callback := cb |} = true).
  { unfold holds. cbn [conn_emitter conn_id].
    rewrite bool_decide_eq_true_2 by reflexivity.
    rewrite Nat.eqb_refl. reflexivity. }
  cbn [existsb List.filter]. rewrite !Hhead. cbn [orb negb].
  rewrite (filter_later e n rest Hrest). reflexivity.
Qed.


Lemma emit_listeners w e s this h :
  handlers w = listeners this h ->
  emit e s w = runAll (callbacksOf this e s) w.
Proof.
  intros Hh. unfold emit. rewrite Hh.
  destruct e, s; reflexivity.
Qed.

Lemma runAll_reorder this logText w :
  runAll [CbReorder this logText] w = reorderGrid this logText w.
Proof.
  cbv beta iota delta [runAll runCallback bind ret].
  destruct (reorderGrid this logText w) as [[] w1|e w1]; reflexivity.
Qed.

(** With the connections of [startListeners] in place, a signal event runs
    exactly one handler, and that handler does nothing but call
    [reorderGrid], unless it is the state handler outside the app grid. *)
Lemma step_signal_wired w this h ev :
  handlers w = listeners this h -> isSignal ev = true ->
  step ev w =
    if isTrigger ev
    then reorderGrid this (logTextOf ev) (arrive ev w)
    else Ok tt (arrive ev w).
Proof.
  intros Hh Hev.
  destruct ev; try discriminate Hev; cbn [step isTrigger isSignal].
  - rewrite (emit_listeners _ _ _ _ _ Hh). apply runAll_reorder.
  - rewrite (emit_listeners _ _ _ _ _ Hh). apply runAll_reorder.
  - rewrite (emit_listeners _ _ _ _ _ Hh). apply runAll_reorder.
  - unfold bind at 1, modify at 1.
    rewrite (emit_listeners (writeSetting k w) _ _ this h)
      by (destruct k; exact Hh).
    cbv beta iota delta [callbacksOf runAll runCallback bind ret gets modify].
    change (set_loggingEnabled (logging_enabled (writeSetting k w))
              (writeSetting k w))
      with (arrive (ExtensionSettingChanged k) w).
    destruct (reorderGrid this _ (arrive (ExtensionSettingChanged k) w))
      as [[] w1|e w1]; reflexivity.
  - rewrite (emit_listeners _ _ _ _ _ Hh). apply runAll_reorder.
  - unfold bind at 1, modify at 1.
    rewrite (emit_listeners (set_folder_children l w) _ _ this h) by exact Hh.
    apply runAll_reorder.
  - unfold bind at 1, modify at 1.
    rewrite (emit_listeners (set_stateValue v w) _ _ this h) by exact Hh.
    cbv beta iota delta [callbacksOf runAll runCallback bind ret gets].
    change (stateValue (set_stateValue v w)) with v.
    change (set_stateValue v w) with (arrive (StateValueChanged v) w).
    destruct (Qeq_bool v APP_GRID); [|reflexivity].
    destruct (reorderGrid this _ (arrive (StateValueChanged v) w))
      as [[] w1|e w1]; reflexivity.
Qed.

Lemma frame_arrive ev w : isSignal ev = true -> frame (arrive ev w) = frame w.
Proof.
  intros Hev. destruct ev; try discriminate Hev; try reflexivity.
  destruct k; reflexivity.
Qed.

(** *** The invariant *)

Lemma Enabled_frame this w w' :
  frame w' = frame w -> Enabled this w -> Enabled this w'.
Proof.
  intros Hf (Hg & h & busy & t & Hc & Hh & Hcmp & Hre & Hfl).
  unfold frame in Hf. injection Hf as Eg Eh _ _ _ _ Ec Er Ehs _ Es _ _.
  split; [congruence|]. exists h, busy, t.
  repeat split; try congruence.
  unfold Flight in *. destruct t; rewrite Es; exact Hfl.
Qed.

Lemma Disabled_frame w w' :
  frame w' = frame w -> Disabled w -> Disabled w'.
Proof.
  intros Hf (Hg & Hh & Hs & Hc & Hr).
  unfold frame in Hf. injection Hf as Eg _ _ _ _ _ Ec Er Ehs _ Es _ _.
  repeat split; congruence.
Qed.

Lemma reorderGrid_Enabled this logText w :
  Enabled this w ->
  exists w',
    reorderGrid this logText w = Ok tt w' /\ Enabled this w' /\
    handlers w' = handlers w /\ environment w' = environment w.
Proof.
  intros (Hg & h & busy & t & Hc & Hh & Hcmp & Hre & Hfl).
  destruct busy eqn:Hb.
  { exists w. split.
    - apply (reorderGrid_busy w this _ logText Hc). left. reflexivity.
    - split; [|split; reflexivity].
      split; [exact Hg|]. exists h, true, t. auto. }
  destruct (updatingPages w) eqn:Hu.
  { exists w. split.
    - apply (reorderGrid_busy w this _ logText Hc). right. exact Hu.
    - split; [|split; reflexivity].
      split; [exact Hg|]. exists h, false, t. auto. }
  exists (started this logText (instance h false t) w). split.
  - apply (reorderGrid_idle w this _ logText Hc); [reflexivity|exact Hu].
  - assert (Hs : sources w = ∅).
    { unfold Flight in Hfl. destruct t; destruct Hfl; congruence. }
    destruct w. exec_hyps. subst.
    destruct loggingEnabled0, sort_folder_contents0.
    all: split; [|split; reflexivity].
    all: split; [reflexivity|].
    all: exists h, true, (Id nextSource0).
    all: exec; (split; [reflexivity|]); repeat split;
      rewrite insert_empty; reflexivity.
Qed.

Lemma step_signal_Enabled this ev w :
  Enabled this w -> isSignal ev = true ->
  exists w', step ev w = Ok tt w' /\ Enabled this w'.
Proof.
  intros He Hev.
  pose proof He as (_ & h & _ & _ & _ & Hh & _).
  rewrite (step_signal_wired w this h ev Hh Hev).
  pose proof (Enabled_frame this w _ (frame_arrive ev w Hev) He) as Ha.
  destruct (isTrigger ev).
  - destruct (reorderGrid_Enabled this (logTextOf ev) _ Ha)
      as (w' & Hst & He' & _).
    eauto.
  - eauto.
Qed.

Lemma dispatch_Enabled this n w :
  Enabled this w ->
  exists w', dispatch n w = Ok tt w' /\ Enabled this w'.
Proof.
  intros He. pose proof He as (Hg & h & busy & t & Hc & Hh & Hcmp & Hre & Hfl).
  unfold Flight in Hfl. destruct t as [| |n0].
  1,2: destruct Hfl as [_ Hs]; exists w; split; [|exact He];
       apply dispatch_absent; rewrite Hs; apply lookup_empty.
  destruct Hfl as [-> Hs]. destruct (decide (n0 = n)) as [->|Hne].
  - exists (finished this n (instance h true (Id n)) w). split.
    + apply (dispatch_fires w n 100 this); [|exact Hc].
      rewrite Hs. apply lookup_singleton_eq.
    + destruct w. exec_hyps. subst. split; [reflexivity|].
      exists h, false, Null. exec.
      split; [reflexivity|]. repeat split. apply delete_singleton_eq.
  - exists w. split; [|exact He].
    apply dispatch_absent. rewrite Hs. apply lookup_singleton_ne. exact Hne.
Qed.


Lemma enable_Enabled w :
  Disabled w ->
  exists w', enable w = Ok tt w' /\ Enabled (nextObject w) w'.
Proof.
  intros (Hg & Hh & Hs & Hc & Hr). destruct w. exec_hyps. subst.
  destruct logging_enabled0, updatingPages0, sort_folder_contents0.
  all: eexists; (split; [exec; reflexivity|]).
  all: split; [reflexivity|].
  1,2,5,6: exists nextHandler0, false, Undefined.
  5-8: exists nextHandler0, true, (Id nextSource0).
  all: exec; repeat split; rewrite ?insert_empty; reflexivity.
Qed.

Lemma disconnectListeners_wired this w :
  Enabled this w -> disconnectListeners this w = Ok tt (unwired w).
Proof.
  intros (Hg & h & busy & t & Hc & Hh & Hcmp & Hre & Hfl).
  destruct w. exec_hyps. subst.
  unfold unwired.
  destruct loggingEnabled0.
  all: repeat first
      [ progress exec_core
      | rewrite Hc
      | erewrite disconnect_head;
        [ | reflexivity | repeat constructor; cbn; lia ] ].
  all: unfold Flight in Hfl; exec_hyps; destruct t as [| |n]; exec_core.
  all: destruct Hfl as [_ Hs]; subst; try reflexivity.
  all: unfold source_remove; exec_core;
    rewrite lookup_singleton_eq; exec_core;
    rewrite delete_singleton_eq; reflexivity.
Qed.

Lemma unpatchShell_patched this c w :
  heap w !! this = Some c -> _injectionManager c = patched ->
  unpatchShell this w =
    Ok tt
      (logged "Unpatched redisplay"
         (logged "Unpatched item comparison"
            (set_heap (<[this := set_injectionManager [] c]> (heap w))
               (set_appDisplay_redisplay HostRedisplay
                  (set_appDisplay_compareItems HostCompareItems w))))).
Proof.
  intros Hc Hp. destruct w. exec_hyps.
  destruct loggingEnabled0;
    repeat first [ progress exec_core | rewrite Hc | rewrite Hp ];
    reflexivity.
Qed.

Lemma heap_unwired w : heap (unwired w) = heap w.
Proof. unfold unwired, logged. destruct w, loggingEnabled0; reflexivity. Qed.

Lemma disable_Enabled this w :
  Enabled this w ->
  exists h busy t,
    heap w !! this = Some (instance h busy t) /\
    disable w = Ok tt (tornDown this (instance h busy t) w) /\
    Disabled (tornDown this (instance h busy t) w).
Proof.
  intros He. pose proof He as (Hg & h & busy & t & Hc & Hh & Hcmp & Hre & Hfl).
  exists h, busy, t. split; [exact Hc|]. split.
  - unfold disable. unfold bind at 1, gets at 1. rewrite Hg.
    rewrite (bind_Ok _ _ _ _ _ (disconnectListeners_wired this w He)).
    erewrite bind_Ok
      by (apply (unpatchShell_patched this (instance h busy t));
          [rewrite heap_unwired; exact Hc | reflexivity]).
    unfold modify, tornDown. rewrite heap_unwired. reflexivity.
  - destruct w. exec_hyps. unfold tornDown, unwired.
    destruct loggingEnabled0; exec_core; repeat split.
Qed.

Lemma step_quiet_Disabled ev w :
  Disabled w -> isSignal ev || isTimeout ev = true ->
  step ev w = Ok tt (hostWrite ev w) /\ Disabled (hostWrite ev w) /\
  frame (hostWrite ev w) = frame w.
Proof.
  intros Hd Hev. pose proof Hd as (Hg & Hh & Hs & Hc & Hr).
  assert (Hf : frame (hostWrite ev w) = frame w).
  { destruct ev; try reflexivity. destruct k; reflexivity. }
  split; [|split; [exact (Disabled_frame _ _ Hf Hd)|exact Hf]].
  destruct ev; try discriminate Hev; cbn [step hostWrite].
  1-3,5: apply emit_nil, Hh.
  - unfold bind, modify. apply emit_nil. destruct k; exact Hh.
  - unfold bind, modify. apply emit_nil. exact Hh.
  - unfold bind, modify. apply emit_nil. exact Hh.
  - apply dispatch_absent. rewrite Hs. apply lookup_empty.
Qed.

Lemma Inv_updatingPages b w : Inv w -> Inv (set_updatingPages b w).
Proof.
  intros [(Hg & Hh & Hs & Hc & Hr)|[this He]].
  - left. repeat split; assumption.
  - right. exists this.
    destruct He as (Hg & h & busy & t & Hc & Hh & Hcmp & Hre & Hfl).
    split; [exact Hg|]. exists h, busy, t. repeat split; assumption.
Qed.

(** Every allowed event runs to completion and keeps the invariant. *)
Lemma step_Inv ev w :
  Inv w -> allowed ev w = true ->
  exists w', step ev w = Ok tt w' /\ Inv w'.
Proof.
  intros HI Hal.
  destruct (isSignal ev || isTimeout ev) eqn:Hq.
  - destruct HI as [Hd|[this He]].
    + destruct (step_quiet_Disabled ev w Hd Hq) as (Hst & Hd' & _).
      exists (hostWrite ev w). split; [exact Hst|left; exact Hd'].
    + destruct (isSignal ev) eqn:Hsig.
      * destruct (step_signal_Enabled this ev w He Hsig) as (w' & Hst & He').
        exists w'. split; [exact Hst|right; eauto].
      * destruct ev; try discriminate Hq; try discriminate Hsig.
        destruct (dispatch_Enabled this n w He) as (w' & Hst & He').
        exists w'. split; [exact Hst|right; eauto].
  - destruct ev; try discriminate Hq.
    + (* enable *)
      destruct HI as [Hd|[this He]].
      * destruct (enable_Enabled w Hd) as (w' & Hst & He').
        exists w'. split; [exact Hst|right; eauto].
      * destruct He as (Hg & _). cbn [allowed] in Hal. rewrite Hg in Hal.
        rewrite bool_decide_eq_true_2 in Hal by eauto. discriminate.
    + (* disable *)
      destruct HI as [Hd|[this He]].
      * destruct Hd as (Hg & _). cbn [allowed] in Hal. rewrite Hg in Hal.
        rewrite bool_decide_eq_false_2 in Hal; [discriminate|].
        intros [x Hx]. discriminate.
      * destruct (disable_Enabled this w He) as (h & busy & t & _ & Hst & Hd).
        eexists. split; [exact Hst|left; exact Hd].
    + eexists. split; [reflexivity|]. apply Inv_updatingPages, HI.
Qed.

Lemma Initial_Disabled w : Initial w -> Disabled w.
Proof.
  intros (Hg & _ & _ & Hh & Hs & Hc & Hr & _). repeat split; assumption.
Qed.

Lemma Reachable_Inv w : Reachable w -> Inv w.
Proof.
  induction 1 as [w Hi|w ev w' _ IH Hal Hst].
  - left. apply Initial_Disabled, Hi.
  - destruct (step_Inv ev w IH Hal) as (w'' & Hst' & HI).
    rewrite Hst in Hst'. injection Hst' as <-. exact HI.
Qed.

Lemma Reachable_Enabled w this :
  Reachable w -> gridReorder w = Some this -> Enabled this w.
Proof.
  intros Hr Hg. destruct (Reachable_Inv w Hr) as [(Hn & _)|[this' He]].
  - congruence.
  - destruct He as (Hg' & Hrest). rewrite Hg in Hg'. injection Hg' as <-.
    split; assumption.
Qed.


(** *** Triggers while a reorder is in flight *)

Lemma frame_fields w w' :
  frame w' = frame w ->
  gridReorder w' = gridReorder w /\ heap w' = heap w /\
  folderStore w' = folderStore w /\
  appDisplay_redisplay w' = appDisplay_redisplay w /\
  handlers w' = handlers w /\ sources w' = sources w /\
  trace w' = trace w.
Proof.
  unfold frame. intros Hf.
  injection Hf as Eg Eh _ Ef _ _ _ Er Ehs _ Es _ Et. auto 10.
Qed.

Lemma step_signal_busy w this h c ev :
  handlers w = listeners this h -> heap w !! this = Some c ->
  _currentlyUpdating c = true -> isSignal ev = true ->
  step ev w = Ok tt (arrive ev w).
Proof.
  intros Hh Hc Hb Hev. rewrite (step_signal_wired w this h ev Hh Hev).
  destruct (isTrigger ev); [|reflexivity].
  apply (reorderGrid_busy _ this c); [|left; exact Hb].
  destruct (frame_fields _ _ (frame_arrive ev w Hev)) as (_ & -> & _).
  exact Hc.
Qed.

Lemma run_signals_busy this h c burst : forall w,
  handlers w = listeners this h -> heap w !! this = Some c ->
  _currentlyUpdating c = true -> forallb isSignal burst = true ->
  exists w1, run burst w = Ok tt w1 /\ frame w1 = frame w.
Proof.
  induction burst as [|ev burst IH]; intros w Hh Hc Hb Hall.
  - exists w. split; reflexivity.
  - cbn [forallb] in Hall. apply andb_prop in Hall as [Hev Hall].
    pose proof (frame_arrive ev w Hev) as Hf.
    destruct (frame_fields _ _ Hf) as (_ & Eh & _ & _ & Ehs & _).
    destruct (IH (arrive ev w)) as (w1 & Hrun & Hf1); try assumption.
    { rewrite Ehs. exact Hh. }
    { rewrite Eh. exact Hc. }
    exists w1. split; [|congruence].
    cbn [run].
    rewrite (bind_Ok _ _ _ _ _
               (step_signal_busy w this h c ev Hh Hc Hb Hev)).
    exact Hrun.
Qed.

(** C1.  While the lock [_currentlyUpdating] is held, [reorderGrid] returns
    the world as it found it: no folder sort, no timeout source, no change
    of the controller.  Any burst of signal events that arrives during one
    reorder in flight therefore leaves the [frame] of the world untouched
    (the controller, the pending source, the folders, the observable trace;
    only the values the events carry and the module's logging flag may
    differ), and when the one pending timeout fires the trace has grown by
    exactly one [reloadAppGrid], no source is left and the lock is free:
    nothing was queued. *)
Theorem reorderGrid_dropped_while_busy (w : World) (this : nat)
    (c : AppGridExtension) (logText : string) (burst : list Event) :
  Reachable w -> gridReorder w = Some this ->
  heap w !! this = Some c -> _currentlyUpdating c = true ->
  forallb isSignal burst = true ->
  reorderGrid this logText w = Ok tt w /\
  exists n w1 w2 c2,
    sources w = {[ n := (100, CbReorderTimeout this) ]} /\
    run burst w = Ok tt w1 /\ frame w1 = frame w /\
    step (TimeoutElapsed n) w1 = Ok tt w2 /\
    trace w2 = trace w ++ [Invoked ReloadAppGrid] /\
    folderStore w2 = folderStore w /\
    sources w2 = ∅ /\
    heap w2 !! this = Some c2 /\ _currentlyUpdating c2 = false.
Proof.
  intros Hr Hg Hc Hb Hall.
  split; [apply (reorderGrid_busy w this c logText Hc); left; exact Hb|].
  destruct (Reachable_Enabled w this Hr Hg)
    as (_ & h & busy & t & Hc' & Hh & _ & Hre & Hfl).
  rewrite Hc in Hc'. injection Hc' as ->. cbn in Hb. subst busy.
  unfold Flight in Hfl. destruct t as [| |n]; try (destruct Hfl; discriminate).
  destruct Hfl as [_ Hs].
  destruct (run_signals_busy this h _ burst w Hh Hc eq_refl Hall)
    as (w1 & Hrun & Hf).
  destruct (frame_fields _ _ Hf) as (_ & Eh & Ef & Er & _ & Es & Et).
  exists n, w1, (finished this n (instance h true (Id n)) w1),
    (set_reorderGridTimeoutId Null
       (set_currentlyUpdating false (instance h true (Id n)))).
  split; [exact Hs|]. split; [exact Hrun|]. split; [exact Hf|].
  split.
  { cbn [step]. apply (dispatch_fires w1 n 100 this).
    - rewrite Es, Hs. apply lookup_singleton_eq.
    - rewrite Eh. exact Hc. }
  unfold finished. destruct w1. exec_hyps. subst. exec.
  rewrite Hre. repeat split.
  - rewrite Hs. apply delete_singleton_eq.
Qed.

Lemma enabledShell_reachable : Reachable enabledShell.
Proof.
  apply (reach_step freshShell EnableExtension).
  - apply reach_initial. repeat split.
  - reflexivity.
  - vm_compute. reflexivity.
Qed.

Lemma reorderGrid_dropped_while_busy_witness :
  Reachable enabledShell /\ gridReorder enabledShell = Some 0 /\
  heap enabledShell !! 0 = Some (instance 1 true (Id 1)) /\
  _currentlyUpdating (instance 1 true (Id 1)) = true /\
  forallb isSignal [FavoriteAppsChanged; FavoriteAppsChanged] = true /\
  reorderGrid 0 "Favourite apps changed, triggering reorder" enabledShell =
    Ok tt enabledShell /\
  exists n w1 w2 c2,
    sources enabledShell = {[ n := (100, CbReorderTimeout 0) ]} /\
    run [FavoriteAppsChanged; FavoriteAppsChanged] enabledShell = Ok tt w1 /\
    frame w1 = frame enabledShell /\
    step (TimeoutElapsed n) w1 = Ok tt w2 /\
    trace w2 = trace enabledShell ++ [Invoked ReloadAppGrid] /\
    folderStore w2 = folderStore enabledShell /\
    sources w2 = ∅ /\
    heap w2 !! 0 = Some c2 /\ _currentlyUpdating c2 = false.
Proof.
  assert (Hc : heap enabledShell !! 0 = Some (instance 1 true (Id 1)))
    by (vm_compute; reflexivity).
  split; [exact enabledShell_reachable|]. split; [reflexivity|].
  split; [exact Hc|]. split; [reflexivity|]. split; [reflexivity|].
  exact (reorderGrid_dropped_while_busy enabledShell 0
           (instance 1 true (Id 1))
           "Favourite apps changed, triggering reorder"
           [FavoriteAppsChanged; FavoriteAppsChanged]
           enabledShell_reachable eq_refl Hc eq_refl eq_refl).
Defined.

Lemma idleShell_reachable : Reachable idleShell.
Proof.
  apply (reach_step enabledShell (TimeoutElapsed 1)).
  - exact enabledShell_reachable.
  - reflexivity.
  - vm_compute. reflexivity.
Qed.

(** The scenario of two rapid changes of the favourite apps: the second is
    dropped and the grid is reloaded once. *)
Example two_rapid_triggers_one_reload :
  succeeds (run [FavoriteAppsChanged; FavoriteAppsChanged; TimeoutElapsed 2]
              idleShell) = true /\
  reloads (worldOf (run [FavoriteAppsChanged; FavoriteAppsChanged;
                         TimeoutElapsed 2] idleShell)) =
    S (reloads idleShell).
Proof. split; vm_compute; reflexivity. Qed.

(** While a timeout source is pending the shell is patched. *)
Lemma pending_source_patched w n x :
  Reachable w -> sources w !! n = Some x ->
  appDisplay_redisplay w = ReloadAppGrid.
Proof.
  intros Hr Hn. destruct (Reachable_Inv w Hr) as [Hd|[this He]].
  - destruct Hd as (_ & _ & Hs & _). rewrite Hs, lookup_empty in Hn.
    discriminate.
  - destruct He as (_ & h & busy & t & _ & _ & _ & Hre & _). exact Hre.
Qed.

(** *** One reorder, from trigger to redisplay *)

(** C2.  Called with the lock free and the host not updating its pages,
    [reorderGrid] takes the lock, runs [reorderFolderContents] exactly when
    the sort-folder-contents key is set, and adds one timeout source of 100
    ms whose handle it stores.  When that source is dispatched, in whatever
    world it is still pending, the closure calls the function in the
    [_redisplay] slot, frees the lock, sets the handle to [null], and the
    source is gone; in a reachable world that slot holds [reloadAppGrid]. *)
Theorem reorderGrid_starts_one_reorder (w : World) (this : nat)
    (c : AppGridExtension) (logText : string) :
  heap w !! this = Some c ->
  _currentlyUpdating c = false -> updatingPages w = false ->
  exists w1,
    reorderGrid this logText w = Ok tt w1 /\
    heap w1 =
      <[this := set_reorderGridTimeoutId (Id (nextSource w))
                  (set_currentlyUpdating true c)]> (heap w) /\
    sources w1 =
      <[nextSource w := (100, CbReorderTimeout this)]> (sources w) /\
    folderStore w1 =
      (if sort_folder_contents w
       then reorderFolderContents (folderStore w) else folderStore w) /\
    trace w1 =
      trace w ++
      (if loggingEnabled w then [Logged logText] else []) ++
      (if sort_folder_contents w
       then (if loggingEnabled w
             then [Logged "Reordering folder contents"] else []) ++
            [ReorderedFolderContents]
       else []) /\
    forall (w' : World) (c' : AppGridExtension),
      sources w' !! nextSource w = Some (100, CbReorderTimeout this) ->
      heap w' !! this = Some c' ->
      exists w2,
        dispatch (nextSource w) w' = Ok tt w2 /\
        trace w2 = trace w' ++ [Invoked (appDisplay_redisplay w')] /\
        heap w2 =
          <[this := set_reorderGridTimeoutId Null
                      (set_currentlyUpdating false c')]> (heap w') /\
        sources w2 = delete (nextSource w) (sources w') /\
        (Reachable w' -> appDisplay_redisplay w' = ReloadAppGrid).
Proof.
  intros Hc Hb Hu.
  exists (started this logText c w).
  split; [apply (reorderGrid_idle w this c logText Hc Hb Hu)|].
  split.
  { destruct w, loggingEnabled0, sort_folder_contents0; reflexivity. }
  split.
  { destruct w, loggingEnabled0, sort_folder_contents0; reflexivity. }
  split.
  { destruct w, loggingEnabled0, sort_folder_contents0; reflexivity. }
  split.
  { destruct w, loggingEnabled0, sort_folder_contents0; exec;
      rewrite <- ?app_assoc, ?app_nil_r; reflexivity. }
  intros w' c' Hn Hc'.
  exists (finished this (nextSource w) c' w').
  split; [apply (dispatch_fires w' _ 100 this c' Hn Hc')|].
  split; [reflexivity|]. split; [reflexivity|]. split; [reflexivity|].
  intros Hr'. apply (pending_source_patched w' _ _ Hr' Hn).
Qed.

Lemma reorderGrid_starts_one_reorder_witness :
  heap idleShell !! 0 = Some (instance 1 false Null) /\
  _currentlyUpdating (instance 1 false Null) = false /\
  updatingPages idleShell = false /\
  exists w1,
    reorderGrid 0 "App grid opened, triggering reorder" idleShell = Ok tt w1 /\
    heap w1 =
      <[0 := set_reorderGridTimeoutId (Id (nextSource idleShell))
               (set_currentlyUpdating true (instance 1 false Null))]>
        (heap idleShell) /\
    sources w1 =
      <[nextSource idleShell := (100, CbReorderTimeout 0)]>
        (sources idleShell).
Proof.
  assert (Hc : heap idleShell !! 0 = Some (instance 1 false Null))
    by (vm_compute; reflexivity).
  split; [exact Hc|]. split; [reflexivity|]. split; [reflexivity|].
  destruct (reorderGrid_starts_one_reorder idleShell 0 (instance 1 false Null)
              "App grid opened, triggering reorder" Hc eq_refl eq_refl)
    as (w1 & H1 & H2 & H3 & _).
  exists w1. split; [exact H1|]. split; [exact H2|exact H3].
Defined.

(** *** Teardown *)

Lemma disconnect_lenient e h w :
  staleDisconnectRaises (policy w) e = false ->
  exists w', disconnect e h w = Ok tt w' /\
             heap w' = heap w /\ policy w' = policy w /\
             loggingEnabled w' = loggingEnabled w.
Proof.
  intros Hp.
  assert (Hstale : staleDisconnect e w = Ok tt w)
    by (unfold staleDisconnect; rewrite Hp; reflexivity).
  destruct h as [| |n]; cbn [disconnect]; eauto.
  unfold bind, gets, modify.
  destruct (existsb (holds e n) (handlers w)); eauto.
Qed.

Lemma source_remove_lenient h w :
  staleSourceRemoveRaises (policy w) = false ->
  exists w', source_remove h w = Ok tt w' /\
             heap w' = heap w /\ policy w' = policy w /\
             loggingEnabled w' = loggingEnabled w.
Proof.
  intros Hp.
  assert (Hstale : staleSourceRemove w = Ok tt w)
    by (unfold staleSourceRemove; rewrite Hp; reflexivity).
  destruct h as [| |n]; cbn [source_remove]; eauto.
  unfold bind, gets, modify.
  destruct (sources w !! n); eauto.
Qed.

(** On a host that ignores stale handles, [disconnectListeners] runs to
    its end from any state of the instance. *)
Lemma disconnectListeners_lenient this c w :
  heap w !! this = Some c ->
  (forall e, staleDisconnectRaises (policy w) e = false) ->
  staleSourceRemoveRaises (policy w) = false ->
  exists w', disconnectListeners this w = Ok tt w' /\
             heap w' = heap w /\ policy w' = policy w.
Proof.
  intros Hc Hd Hs. unfold disconnectListeners.
  assert (Hstep : forall e (f : AppGridExtension -> Handle) (k : M unit) v,
    heap v = heap w -> policy v = policy w ->
    (forall v', heap v' = heap w -> policy v' = policy w ->
       exists w',
         k v' = Ok tt w' /\ heap w' = heap w /\ policy w' = policy w) ->
    exists w',
      (h <- readThis this f ;; disconnect e h ;; k) v = Ok tt w' /\
      heap w' = heap w /\ policy w' = policy w).
  { intros e f k v Hv Hpv Hk.
    rewrite (bind_Ok _ _ _ _ _
               (readThis_Some v this c f ltac:(rewrite Hv; exact Hc))).
    destruct (disconnect_lenient e (f c) v) as (v1 & Hv1 & Eh & Ep & _).
    { rewrite Hpv. apply Hd. }
    rewrite (bind_Ok _ _ _ _ _ Hv1). apply Hk; congruence. }
  apply Hstep; try reflexivity. intros v1 Hv1 Hp1.
  apply Hstep; try assumption. intros v2 Hv2 Hp2.
  apply Hstep; try assumption. intros v3 Hv3 Hp3.
  apply Hstep; try assumption. intros v4 Hv4 Hp4.
  apply Hstep; try assumption. intros v5 Hv5 Hp5.
  apply Hstep; try assumption. intros v6 Hv6 Hp6.
  rewrite (bind_Ok _ _ _ _ _
             (readThis_Some v6 this c _ ltac:(rewrite Hv6; exact Hc))).
  assert (H7 : exists v7,
    (if notNull (_reorderOnDisplaySignal c)
     then disconnect StateAdjustment (_reorderOnDisplaySignal c)
     else ret tt) v6 = Ok tt v7 /\ heap v7 = heap w /\ policy v7 = policy w).
  { destruct (notNull (_reorderOnDisplaySignal c)).
    - destruct (disconnect_lenient StateAdjustment
                  (_reorderOnDisplaySignal c) v6) as (v7 & E & Eh & Ep & _).
      { rewrite Hp6. apply Hd. }
      exists v7. repeat split; congruence.
    - exists v6. repeat split; assumption. }
  destruct H7 as (v7 & E7 & Hv7 & Hp7). rewrite (bind_Ok _ _ _ _ _ E7).
  rewrite (bind_Ok _ _ _ _ _
             (readThis_Some v7 this c _ ltac:(rewrite Hv7; exact Hc))).
  assert (H8 : exists v8,
    (if notNull (_reorderGridTimeoutId c)
     then source_remove (_reorderGridTimeoutId c)
     else ret tt) v7 = Ok tt v8 /\ heap v8 = heap w /\ policy v8 = policy w).
  { destruct (notNull (_reorderGridTimeoutId c)).
    - destruct (source_remove_lenient (_reorderGridTimeoutId c) v7)
        as (v8 & E & Eh & Ep & _).
      { rewrite Hp7. exact Hs. }
      exists v8. repeat split; congruence.
    - exists v7. repeat split; assumption. }
  destruct H8 as (v8 & E8 & Hv8 & Hp8). rewrite (bind_Ok _ _ _ _ _ E8).
  rewrite logMessage_logged. eexists. split; [reflexivity|].
  unfold logged. destruct v8, loggingEnabled0; split; assumption.
Qed.


Lemma getThis_Some w this c :
  heap w !! this = Some c -> getThis this w = Ok c w.
Proof. intros H. unfold getThis. rewrite H. reflexivity. Qed.

Lemma restoreAll_keeps saved : forall v,
  heap (restoreAll saved v) = heap v /\
  loggingEnabled (restoreAll saved v) = loggingEnabled v.
Proof.
  unfold restoreAll.
  induction saved as [|[m o] saved IH]; intros v; cbn [fold_left fst snd].
  - split; reflexivity.
  - destruct (IH (installMethod m o v)) as [-> ->].
    destruct m; split; reflexivity.
Qed.

Lemma clear_any this c v :
  heap v !! this = Some c ->
  clear this v =
    Ok tt (set_heap (<[this := set_injectionManager [] c]> (heap v))
             (restoreAll (_injectionManager c) v)).
Proof.
  intros Hc. unfold clear.
  rewrite (bind_Ok _ _ _ _ _ (getThis_Some v this c Hc)).
  unfold bind, modify.
  destruct (restoreAll_keeps (_injectionManager c) v) as [Eh _].
  rewrite (modifyThis_Some _ this c _ ltac:(rewrite Eh; exact Hc)).
  rewrite Eh. reflexivity.
Qed.

(** [unpatchShell] never raises: it restores what the table holds, which
    is nothing when the shell is not patched, and leaves the table empty. *)
Lemma unpatchShell_any this c v :
  heap v !! this = Some c ->
  exists v1,
    unpatchShell this v = Ok tt v1 /\
    heap v1 = <[this := set_injectionManager [] c]> (heap v) /\
    appDisplay_compareItems v1 =
      appDisplay_compareItems (restoreAll (_injectionManager c) v) /\
    appDisplay_redisplay v1 =
      appDisplay_redisplay (restoreAll (_injectionManager c) v).
Proof.
  intros Hc. unfold unpatchShell.
  rewrite (bind_Ok _ _ _ _ _ (clear_any this c v Hc)).
  rewrite (bind_Ok _ _ _ _ _ (logMessage_logged _ _)).
  rewrite logMessage_logged. eexists. split; [reflexivity|].
  unfold logged.
  destruct (restoreAll (_injectionManager c) v) as [].
  cbn [loggingEnabled set_heap set_trace trace heap appDisplay_compareItems
       appDisplay_redisplay gridReorder nextObject logging_enabled
       sort_folder_contents folder_order_position folder_children folderStore
       policy updatingPages stateValue handlers nextHandler sources
       nextSource].
  destruct loggingEnabled0; repeat split.
Qed.

(** C3, as stated, fails.  In a shell whose overview raises for a handler
    it does not hold, [disconnectListeners] runs to its end once, and a
    second call raises at the unguarded [Main.overview.disconnect]: the
    handle fields still hold the numbers that the first call released. *)
Lemma disconnectListeners_twice_counterexample :
  Reachable enabledShell /\ gridReorder enabledShell = Some 0 /\
  errorOf (disconnectListeners 0 enabledShell) = None /\
  errorOf ((disconnectListeners 0 ;; disconnectListeners 0) enabledShell) =
    Some (StaleHandler Overview).
Proof.
  split; [exact enabledShell_reachable|].
  split; [reflexivity|].
  split; vm_compute; reflexivity.
Qed.

(** C3, amended.  In every reachable state of an enabled extension, one
    call of [disconnectListeners] runs to its end on any host, whatever the
    state of the reorder: every handle it passes on is held by the host, and
    the two guards skip a handle that is [null] or [undefined].
    [unpatchShell] runs to its end in every state, also when nothing is
    patched and when applied again, and then changes neither slot.  A
    repeated [disconnectListeners] passes released handles to the host; it
    runs to its end on a host that ignores such handles. *)
Theorem teardown_once_is_safe (w : World) (this : nat) :
  Reachable w -> gridReorder w = Some this ->
  (exists w1,
     disconnectListeners this w = Ok tt w1 /\
     handlers w1 = [] /\ sources w1 = ∅) /\
  (forall (v : World) (i : nat) (c : AppGridExtension),
     heap v !! i = Some c ->
     exists v1 v2,
       unpatchShell i v = Ok tt v1 /\
       unpatchShell i v1 = Ok tt v2 /\
       appDisplay_compareItems v2 = appDisplay_compareItems v1 /\
       appDisplay_redisplay v2 = appDisplay_redisplay v1 /\
       (_injectionManager c = [] ->
        appDisplay_compareItems v1 = appDisplay_compareItems v /\
        appDisplay_redisplay v1 = appDisplay_redisplay v)) /\
  (forall (v : World) (i : nat) (c : AppGridExtension),
     heap v !! i = Some c ->
     (forall e, staleDisconnectRaises (policy v) e = false) ->
     staleSourceRemoveRaises (policy v) = false ->
     succeeds ((disconnectListeners i ;; disconnectListeners i) v) = true).
Proof.
  intros Hr Hg. pose proof (Reachable_Enabled w this Hr Hg) as He.
  split; [|split].
  - exists (unwired w). split; [apply disconnectListeners_wired, He|].
    unfold unwired, logged. destruct w, loggingEnabled0; split; reflexivity.
  - intros v i c Hc.
    destruct (unpatchShell_any i c v Hc) as (v1 & E1 & Eh1 & Ec1 & Er1).
    assert (Hc1 : heap v1 !! i = Some (set_injectionManager [] c))
      by (rewrite Eh1; apply lookup_insert_eq).
    destruct (unpatchShell_any i _ v1 Hc1) as (v2 & E2 & _ & Ec2 & Er2).
    exists v1, v2. split; [exact E1|]. split; [exact E2|].
    split; [exact Ec2|]. split; [exact Er2|].
    intros Hnil. rewrite Hnil in Ec1, Er1. split; assumption.
  - intros v i c Hc Hd Hs.
    destruct (disconnectListeners_lenient i c v Hc Hd Hs)
      as (v1 & E1 & Eh & Ep).
    rewrite (bind_Ok _ _ _ _ _ E1).
    destruct (disconnectListeners_lenient i c v1) as (v2 & E2 & _).
    + rewrite Eh. exact Hc.
    + intros e. rewrite Ep. apply Hd.
    + rewrite Ep. exact Hs.
    + rewrite E2. reflexivity.
Qed.

Lemma teardown_once_is_safe_witness :
  Reachable enabledShell /\ gridReorder enabledShell = Some 0 /\
  exists w1,
    disconnectListeners 0 enabledShell = Ok tt w1 /\
    handlers w1 = [] /\ sources w1 = ∅.
Proof.
  split; [exact enabledShell_reachable|]. split; [reflexivity|].
  exact (proj1 (teardown_once_is_safe enabledShell 0
                  enabledShell_reachable eq_refl)).
Defined.

(** *** After shutdown *)

Lemma startListeners_connects this c v :
  heap v !! this = Some c ->
  exists v1,
    startListeners this v = Ok tt v1 /\
    handlers v1 = handlers v ++ listeners this (nextHandler v).
Proof.
  intros Hc. destruct v, c. exec_hyps.
  destruct loggingEnabled0.
  all: eexists; split;
    [ repeat first [ progress exec_core | rewrite Hc
                   | rewrite lookup_insert_eq | rewrite insert_insert_eq ];
      reflexivity
    | exec_core; unfold listeners; rewrite <- !app_assoc; reflexivity ].
Qed.

Lemma run_quiet_Disabled quiet : forall w,
  Disabled w ->
  forallb (fun ev => isSignal ev || isTimeout ev) quiet = true ->
  exists w2,
    run quiet w = Ok tt w2 /\ frame w2 = frame w /\
    loggingEnabled w2 = loggingEnabled w /\ Disabled w2.
Proof.
  induction quiet as [|ev quiet IH]; intros w Hd Hall.
  - exists w. split; [reflexivity|]. split; [reflexivity|].
    split; [reflexivity|exact Hd].
  - cbn [forallb] in Hall. apply andb_prop in Hall as [Hev Hall].
    destruct (step_quiet_Disabled ev w Hd Hev) as (Hst & Hd' & Hf).
    destruct (IH _ Hd' Hall) as (w2 & Hrun & Hf2 & Hl & Hd2).
    exists w2. cbn [run]. rewrite (bind_Ok _ _ _ _ _ Hst).
    split; [exact Hrun|]. split; [congruence|]. split; [|exact Hd2].
    rewrite Hl. destruct ev; try reflexivity. destruct k; reflexivity.
Qed.


(** C4.  [startListeners] makes the seven connections of [listeners] and
    nothing else; in every reachable state of an enabled extension these
    are all the handlers there are, and [disable()] releases every one of
    them together with any pending timeout source.  From then on an
    emission of any signal by any emitter and the dispatch of any source
    run no code of the controller, and no sequence of signal and timeout
    events changes an instance, the trace, the folders or the logging
    flag. *)
Theorem no_handler_fires_after_disable (w : World) (this : nat)
    (quiet : list Event) :
  Reachable w -> gridReorder w = Some this ->
  forallb (fun ev => isSignal ev || isTimeout ev) quiet = true ->
  (forall (v : World) (i : nat) (c : AppGridExtension),
     heap v !! i = Some c ->
     exists v1,
       startListeners i v = Ok tt v1 /\
       handlers v1 = handlers v ++ listeners i (nextHandler v)) /\
  exists h w1 w2,
    handlers w = listeners this h /\
    disable w = Ok tt w1 /\
    gridReorder w1 = None /\ handlers w1 = [] /\ sources w1 = ∅ /\
    (forall e s, emit e s w1 = Ok tt w1) /\
    (forall n, dispatch n w1 = Ok tt w1) /\
    run quiet w1 = Ok tt w2 /\
    frame w2 = frame w1 /\ heap w2 = heap w1 /\ trace w2 = trace w1 /\
    loggingEnabled w2 = loggingEnabled w1.
Proof.
  intros Hr Hg Hq. split.
  { intros v i c Hc. apply (startListeners_connects i c v Hc). }
  pose proof (Reachable_Enabled w this Hr Hg) as He.
  destruct (disable_Enabled this w He) as (h & busy & t & Hc & Hdis & Hd).
  pose proof He as (_ & h' & busy' & t' & Hc' & Hh & _).
  rewrite Hc in Hc'. injection Hc' as <- <- <-.
  destruct (run_quiet_Disabled quiet _ Hd Hq) as (w2 & Hrun & Hf & Hl & _).
  destruct (frame_fields _ _ Hf) as (_ & Eh & _ & _ & _ & _ & Et).
  pose proof Hd as (Hg1 & Hh1 & Hs1 & _).
  exists h, (tornDown this (instance h busy t) w), w2.
  split; [exact Hh|]. split; [exact Hdis|]. split; [exact Hg1|].
  split; [exact Hh1|]. split; [exact Hs1|].
  split; [intros e s; apply emit_nil, Hh1|].
  split; [intros n; apply dispatch_absent; rewrite Hs1; apply lookup_empty|].
  auto 10.
Qed.

Lemma no_handler_fires_after_disable_witness :
  Reachable enabledShell /\ gridReorder enabledShell = Some 0 /\
  forallb (fun ev => isSignal ev || isTimeout ev)
    [FavoriteAppsChanged; StateValueChanged APP_GRID; TimeoutElapsed 1]
    = true /\
  exists h w1 w2,
    handlers enabledShell = listeners 0 h /\
    disable enabledShell = Ok tt w1 /\
    gridReorder w1 = None /\ handlers w1 = [] /\ sources w1 = ∅ /\
    (forall e s, emit e s w1 = Ok tt w1) /\
    (forall n, dispatch n w1 = Ok tt w1) /\
    run [FavoriteAppsChanged; StateValueChanged APP_GRID; TimeoutElapsed 1]
      w1 = Ok tt w2 /\
    frame w2 = frame w1 /\ heap w2 = heap w1 /\ trace w2 = trace w1 /\
    loggingEnabled w2 = loggingEnabled w1.
Proof.
  split; [exact enabledShell_reachable|]. split; [reflexivity|].
  split; [reflexivity|].
  exact (proj2 (no_handler_fires_after_disable enabledShell 0
                  [FavoriteAppsChanged; StateValueChanged APP_GRID;
                   TimeoutElapsed 1]
                  enabledShell_reachable eq_refl eq_refl)).
Defined.

(** *** The patched comparator *)

Lemma step_signal_Enabled_env this ev w :
  Enabled this w -> isSignal ev = true ->
  exists w',
    step ev w = Ok tt w' /\ Enabled this w' /\
    handlers w' = handlers w /\ environment w' = environment (arrive ev w).
Proof.
  intros He Hev.
  pose proof He as (_ & h & _ & _ & _ & Hh & _).
  rewrite (step_signal_wired w this h ev Hh Hev).
  pose proof (frame_arrive ev w Hev) as Hf.
  pose proof (Enabled_frame this w _ Hf He) as Ha.
  destruct (frame_fields _ _ Hf) as (_ & _ & _ & _ & Ehs & _).
  destruct (isTrigger ev).
  - destruct (reorderGrid_Enabled this (logTextOf ev) _ Ha)
      as (w' & Hst & He' & Hh' & Henv).
    exists w'. split; [exact Hst|]. split; [exact He'|].
    split; [congruence|exact Henv].
  - exists (arrive ev w). split; [reflexivity|]. split; [exact Ha|].
    split; [exact Ehs|reflexivity].
Qed.

Lemma environment_fields w w' :
  environment w' = environment w ->
  folder_order_position w' = folder_order_position w /\
  folder_children w' = folder_children w.
Proof.
  unfold environment. intros He. injection He as _ _ _ Ep Ec _. auto.
Qed.

Lemma callCompareItems_patched helper host w a b :
  appDisplay_compareItems w = PatchedCompareItems ->
  callCompareItems helper host w a b =
    Some (helper a b (folder_order_position w) (folder_children w)).
Proof. intros H. unfold callCompareItems. rewrite H. reflexivity. Qed.

(** C8.  While the extension is enabled, a call of [_compareItems] through
    the patched slot passes to the helper the values the two settings keys
    hold at the time of the call.  After the folder position key is
    written the next comparison uses the new position, and after the folder
    list is written the next comparison uses the new list; the slot is not
    patched again in between. *)
Theorem patched_comparator_rereads_settings
    (helper : GridItem -> GridItem -> string -> list string -> Z)
    (host : GridItem -> GridItem -> Z)
    (w : World) (this : nat) (s : string) (l : list string)
    (a b : GridItem) :
  Reachable w -> gridReorder w = Some this ->
  callCompareItems helper host w a b =
    Some (helper a b (folder_order_position w) (folder_children w)) /\
  exists w1 w2,
    step (ExtensionSettingChanged (FolderOrderPositionKey s)) w = Ok tt w1 /\
    callCompareItems helper host w1 a b =
      Some (helper a b s (folder_children w)) /\
    step (FolderChildrenChanged l) w1 = Ok tt w2 /\
    callCompareItems helper host w2 a b = Some (helper a b s l).
Proof.
  intros Hr Hg. pose proof (Reachable_Enabled w this Hr Hg) as He.
  split.
  { destruct He as (_ & h & busy & t & _ & _ & Hcmp & _).
    apply callCompareItems_patched, Hcmp. }
  destruct (step_signal_Enabled_env this
              (ExtensionSettingChanged (FolderOrderPositionKey s)) w He
              eq_refl) as (w1 & Hst1 & He1 & _ & Henv1).
  destruct (step_signal_Enabled_env this (FolderChildrenChanged l) w1 He1
              eq_refl) as (w2 & Hst2 & He2 & _ & Henv2).
  destruct (environment_fields _ _ Henv1) as [Ep1 Ec1].
  destruct (environment_fields _ _ Henv2) as [Ep2 Ec2].
  exists w1, w2. split; [exact Hst1|]. split.
  { destruct He1 as (_ & h & busy & t & _ & _ & Hcmp & _).
    rewrite (callCompareItems_patched helper host w1 a b Hcmp), Ep1, Ec1.
    reflexivity. }
  split; [exact Hst2|].
  destruct He2 as (_ & h & busy & t & _ & _ & Hcmp & _).
  rewrite (callCompareItems_patched helper host w2 a b Hcmp), Ep2, Ec2.
  cbn [arrive hostWrite folder_order_position folder_children
       set_folder_children]. rewrite Ep1. reflexivity.
Qed.

Lemma patched_comparator_rereads_settings_witness :
  Reachable enabledShell /\ gridReorder enabledShell = Some 0 /\
  exists w1 w2,
    step (ExtensionSettingChanged (FolderOrderPositionKey "start"))
      enabledShell = Ok tt w1 /\
    callCompareItems
      (fun _ _ pos arr => Z.of_nat (String.length pos + length arr))
      (fun _ _ => 0%Z) w1 (folderItem "f" "F") (appItem "a" "A") =
      Some 6%Z /\
    step (FolderChildrenChanged ["Games"; "Office"]) w1 = Ok tt w2 /\
    callCompareItems
      (fun _ _ pos arr => Z.of_nat (String.length pos + length arr))
      (fun _ _ => 0%Z) w2 (folderItem "f" "F") (appItem "a" "A") =
      Some 7%Z.
Proof.
  split; [exact enabledShell_reachable|]. split; [reflexivity|].
  exact (proj2 (patched_comparator_rereads_settings
                  (fun _ _ pos arr => Z.of_nat (String.length pos + length arr))
                  (fun _ _ => 0%Z) enabledShell 0 "start"
                  ["Games"; "Office"] (folderItem "f" "F") (appItem "a" "A")
                  enabledShell_reachable eq_refl)).
Defined.

(** *** Reorder on display *)

(** C9.  In every reachable state of an enabled extension, however many
    state changes came before, a change of the overview's state value runs
    the one handler that [_reorderOnDisplay] connected: when the new value
    is the app-grid state the handler calls [reorderGrid], for any other
    value the change of the value is all that happens.  The handler stays
    connected, so the same holds for the next change. *)
Theorem reorderOnDisplay_is_recurring (w : World) (this : nat) (v : Q) :
  Reachable w -> gridReorder w = Some this ->
  step (StateValueChanged v) w =
    (if Qeq_bool v APP_GRID
     then reorderGrid this "App grid opened, triggering reorder"
            (set_stateValue v w)
     else Ok tt (set_stateValue v w)) /\
  exists w',
    step (StateValueChanged v) w = Ok tt w' /\
    Reachable w' /\ gridReorder w' = Some this /\
    handlers w' = handlers w.
Proof.
  intros Hr Hg. pose proof (Reachable_Enabled w this Hr Hg) as He.
  split.
  { pose proof He as (_ & h & _ & _ & _ & Hh & _).
    apply (step_signal_wired w this h (StateValueChanged v) Hh eq_refl). }
  destruct (step_signal_Enabled_env this (StateValueChanged v) w He eq_refl)
    as (w' & Hst & He' & Hh' & _).
  exists w'. split; [exact Hst|]. split.
  { apply (reach_step w (StateValueChanged v) w' Hr eq_refl Hst). }
  split; [apply He'|exact Hh'].
Qed.

Lemma reorderOnDisplay_is_recurring_witness :
  Reachable idleShell /\ gridReorder idleShell = Some 0 /\
  step (StateValueChanged 2%Q) idleShell =
    (if Qeq_bool 2%Q APP_GRID
     then reorderGrid 0 "App grid opened, triggering reorder"
            (set_stateValue 2%Q idleShell)
     else Ok tt (set_stateValue 2%Q idleShell)).
Proof.
  split; [exact idleShell_reachable|]. split; [reflexivity|].
  exact (proj1 (reorderOnDisplay_is_recurring idleShell 0 2%Q
                  idleShell_reachable eq_refl)).
Defined.

(** *** Shutdown during a reorder *)

(** C10.  When [disable()] runs while a reorder is in flight, the pending
    timeout source is removed: no source is left, dispatching the removed
    one does nothing, and no later signal or timeout adds to the trace, so
    the redisplay scheduled by that reorder never runs.  The folder store
    is as the reorder left it. *)
Theorem disable_cancels_pending_redisplay (w : World) (this : nat)
    (c : AppGridExtension) (later : list Event) :
  Reachable w -> gridReorder w = Some this ->
  heap w !! this = Some c -> _currentlyUpdating c = true ->
  forallb (fun ev => isSignal ev || isTimeout ev) later = true ->
  exists n w1 w2,
    _reorderGridTimeoutId c = Id n /\
    sources w = {[ n := (100, CbReorderTimeout this) ]} /\
    disable w = Ok tt w1 /\
    sources w1 = ∅ /\
    folderStore w1 = folderStore w /\
    trace w1 =
      trace w ++
      (if loggingEnabled w
       then [Logged "Disconnected from listeners";
             Logged "Unpatched item comparison";
             Logged "Unpatched redisplay"]
       else []) /\
    dispatch n w1 = Ok tt w1 /\
    run later w1 = Ok tt w2 /\
    trace w2 = trace w1 /\ folderStore w2 = folderStore w1.
Proof.
  intros Hr Hg Hc Hb Hq.
  pose proof (Reachable_Enabled w this Hr Hg) as He.
  destruct (disable_Enabled this w He) as (h & busy & t & Hc' & Hdis & Hd).
  rewrite Hc in Hc'. injection Hc' as ->. cbn in Hb. subst busy.
  pose proof He as (_ & h' & busy' & t' & Hc' & _ & _ & _ & Hfl).
  rewrite Hc in Hc'. injection Hc' as <- <- <-.
  unfold Flight in Hfl. destruct t as [| |n]; try (destruct Hfl; discriminate).
  destruct Hfl as [_ Hs].
  destruct (run_quiet_Disabled later _ Hd Hq) as (w2 & Hrun & Hf & _ & _).
  destruct (frame_fields _ _ Hf) as (_ & _ & Ef & _ & _ & _ & Et).
  pose proof Hd as (_ & _ & Hs1 & _).
  exists n, (tornDown this (instance h true (Id n)) w), w2.
  split; [reflexivity|]. split; [exact Hs|]. split; [exact Hdis|].
  split; [exact Hs1|].
  split.
  { unfold tornDown, unwired, logged.
    destruct w, loggingEnabled0; reflexivity. }
  split.
  { unfold tornDown, unwired, logged.
    destruct w, loggingEnabled0; exec_core;
      rewrite <- ?app_assoc, ?app_nil_r; reflexivity. }
  split; [apply dispatch_absent; rewrite Hs1; apply lookup_empty|].
  auto.
Qed.

Lemma disable_cancels_pending_redisplay_witness :
  Reachable enabledShell /\ gridReorder enabledShell = Some 0 /\
  heap enabledShell !! 0 = Some (instance 1 true (Id 1)) /\
  _currentlyUpdating (instance 1 true (Id 1)) = true /\
  forallb (fun ev => isSignal ev || isTimeout ev)
    [TimeoutElapsed 1; InstalledAppsChanged] = true /\
  exists n w1 w2,
    _reorderGridTimeoutId (instance 1 true (Id 1)) = Id n /\
    sources enabledShell = {[ n := (100, CbReorderTimeout 0) ]} /\
    disable enabledShell = Ok tt w1 /\
    sources w1 = ∅ /\
    folderStore w1 = folderStore enabledShell /\
    trace w1 =
      trace enabledShell ++
      (if loggingEnabled enabledShell
       then [Logged "Disconnected from listeners";
             Logged "Unpatched item comparison";
             Logged "Unpatched redisplay"]
       else []) /\
    dispatch n w1 = Ok tt w1 /\
    run [TimeoutElapsed 1; InstalledAppsChanged] w1 = Ok tt w2 /\
    trace w2 = trace w1 /\ folderStore w2 = folderStore w1.
Proof.
  assert (Hc : heap enabledShell !! 0 = Some (instance 1 true (Id 1)))
    by (vm_compute; reflexivity).
  split; [exact enabledShell_reachable|]. split; [reflexivity|].
  split; [exact Hc|]. split; [reflexivity|]. split; [reflexivity|].
  exact (disable_cancels_pending_redisplay enabledShell 0
           (instance 1 true (Id 1)) [TimeoutElapsed 1; InstalledAppsChanged]
           enabledShell_reachable eq_refl Hc eq_refl eq_refl).
Defined.


(** ** Beyond the claims: the transitions of the extension *)

Lemma enable_booted w :
  appDisplay_compareItems w = HostCompareItems ->
  appDisplay_redisplay w = HostRedisplay ->
  enable w = reorderGrid (nextObject w) "Reordering app grid" (booted w).
Proof.
  intros Hc Hr. destruct w. exec_hyps. subst.
  unfold enable, booted, instance, patched.
  generalize reorderGrid. intros rg.
  destruct logging_enabled0;
    exec; unfold listeners; rewrite <- ?app_assoc; reflexivity.
Qed.

Lemma heap_booted w :
  heap (booted w) !! nextObject w =
    Some (instance (nextHandler w) false Undefined) /\
  updatingPages (booted w) = updatingPages w.
Proof.
  unfold booted, logged.
  destruct w, logging_enabled0; exec_core; rewrite lookup_insert_eq;
    split; reflexivity.
Qed.

Lemma enable_enabling w :
  appDisplay_compareItems w = HostCompareItems ->
  appDisplay_redisplay w = HostRedisplay ->
  enable w = Ok tt (enabling w).
Proof.
  intros Hc Hr. rewrite (enable_booted w Hc Hr).
  destruct (heap_booted w) as [Hh Hu]. unfold enabling.
  destruct (updatingPages w) eqn:Hup.
  - apply (reorderGrid_busy _ _ _ _ Hh). right. rewrite Hu. reflexivity.
  - apply (reorderGrid_idle _ _ _ _ Hh); [reflexivity|]. rewrite Hu.
    reflexivity.
Qed.

(** From a world the shell can reach, every allowed event runs to its end
    and makes one of the transitions of [Moves]. *)
Lemma step_Moves ev w :
  Inv w -> allowed ev w = true ->
  exists w', step ev w = Ok tt w' /\ Moves ev w w'.
Proof.
  intros HI Hal.
  destruct (isSignal ev || isTimeout ev) eqn:Hq.
  - destruct HI as [Hd|[this He]].
    + destruct (step_quiet_Disabled ev w Hd Hq) as (Hst & _ & _).
      exists (hostWrite ev w). split; [exact Hst|].
      apply mv_off; [apply Hd|exact Hq].
    + pose proof He as (Hg & h & busy & t & Hc & Hh & Hcmp & Hre & Hfl).
      destruct (isSignal ev) eqn:Hsig.
      * rewrite (step_signal_wired w this h ev Hh Hsig).
        destruct (frame_fields _ _ (frame_arrive ev w Hsig))
          as (_ & Eh & _ & _ & _ & _ & _).
        assert (Eu : updatingPages (arrive ev w) = updatingPages w).
        { destruct ev; try discriminate Hsig; try reflexivity.
          destruct k; reflexivity. }
        destruct (isTrigger ev) eqn:Htr.
        2:{ eexists. split; [reflexivity|].
            apply (mv_drop ev w this _ Hg Hsig Hc). left. exact Htr. }
        destruct busy.
        { exists (arrive ev w). split.
          - apply (reorderGrid_busy _ this (instance h true t)).
            + rewrite Eh. exact Hc.
            + left. reflexivity.
          - apply (mv_drop ev w this _ Hg Hsig Hc). right. left. reflexivity. }
        destruct (updatingPages w) eqn:Hu.
        { exists (arrive ev w). split.
          - apply (reorderGrid_busy _ this (instance h false t)).
            + rewrite Eh. exact Hc.
            + right. rewrite Eu. reflexivity.
          - apply (mv_drop ev w this _ Hg Hsig Hc). right. right. exact Hu. }
        eexists. split.
        -- apply (reorderGrid_idle _ this (instance h false t)).
           ++ rewrite Eh. exact Hc.
           ++ reflexivity.
           ++ rewrite Eu. reflexivity.
        -- apply (mv_start ev w this _ Hg Hsig Htr Hc eq_refl Hu).
      * destruct ev; try discriminate Hq; try discriminate Hsig.
        cbn [step]. unfold Flight in Hfl. destruct t as [| |n0].
        1,2: destruct Hfl as [_ Hs]; exists w;
             assert (Hn : sources w !! n = None)
               by (rewrite Hs; apply lookup_empty);
             (split; [apply dispatch_absent, Hn|apply mv_stale, Hn]).
        destruct Hfl as [-> Hs]. destruct (decide (n0 = n)) as [->|Hne].
        -- assert (Hn : sources w !! n = Some (100, CbReorderTimeout this))
             by (rewrite Hs; apply lookup_singleton_eq).
           eexists. split.
           ++ apply (dispatch_fires w n 100 this _ Hn Hc).
           ++ apply (mv_finish n w this _ Hg Hc Hn Hre).
        -- assert (Hn : sources w !! n = None)
             by (rewrite Hs; apply lookup_singleton_ne; exact Hne).
           exists w. split; [apply dispatch_absent, Hn|apply mv_stale, Hn].
  - destruct ev; try discriminate Hq.
    + destruct HI as [Hd|[this He]].
      * destruct Hd as (Hg & _ & _ & Hc & Hr).
        exists (enabling w). split; [apply (enable_enabling w Hc Hr)|].
        apply mv_enable; assumption.
      * destruct He as (Hg & _). cbn [allowed] in Hal. rewrite Hg in Hal.
        rewrite bool_decide_eq_true_2 in Hal by eauto. discriminate.
    + destruct HI as [Hd|[this He]].
      * destruct Hd as (Hg & _). cbn [allowed] in Hal. rewrite Hg in Hal.
        rewrite bool_decide_eq_false_2 in Hal; [discriminate|].
        intros [x Hx]. discriminate.
      * destruct (disable_Enabled this w He) as (h & busy & t & Hc & Hst & _).
        eexists. split; [exact Hst|].
        apply mv_disable; [apply He|exact Hc].
    + eexists. split; [reflexivity|]. apply mv_pages.
Qed.

Lemma Reachable_Moves ev w w' :
  Reachable w -> allowed ev w = true -> step ev w = Ok tt w' ->
  Moves ev w w'.
Proof.
  intros Hr Hal Hst.
  destruct (step_Moves ev w (Reachable_Inv w Hr) Hal) as (w'' & Hst' & Hm).
  rewrite Hst in Hst'. injection Hst' as <-. exact Hm.
Qed.


(** *** What the closed forms keep *)

Lemma environment_started this logText c v :
  environment (started this logText c v) = environment v.
Proof.
  destruct v, loggingEnabled0, sort_folder_contents0; reflexivity.
Qed.

Lemma environment_finished this n c v :
  environment (finished this n c v) = environment v.
Proof. destruct v; reflexivity. Qed.

Lemma environment_tracks w w' :
  environment w' = environment w ->
  loggingEnabled w = logging_enabled w ->
  loggingEnabled w' = logging_enabled w'.
Proof.
  unfold environment. intros He Ht. injection He as El Ek _ _ _ _.
  congruence.
Qed.

Lemma arrive_tracks ev w :
  loggingEnabled w = logging_enabled w ->
  loggingEnabled (arrive ev w) = logging_enabled (arrive ev w).
Proof.
  intros Ht. destruct ev; try exact Ht. reflexivity.
Qed.

Lemma gridReorder_hostWrite ev w :
  gridReorder (hostWrite ev w) = gridReorder w.
Proof. destruct ev; try reflexivity. destruct k; reflexivity. Qed.

Lemma gridReorder_arrive ev w : gridReorder (arrive ev w) = gridReorder w.
Proof. destruct ev; try reflexivity. destruct k; reflexivity. Qed.

Lemma gridReorder_started this logText c v :
  gridReorder (started this logText c v) = gridReorder v.
Proof.
  destruct v, loggingEnabled0, sort_folder_contents0; reflexivity.
Qed.

Lemma gridReorder_tornDown this c w : gridReorder (tornDown this c w) = None.
Proof. reflexivity. Qed.

Lemma enabling_fields w :
  gridReorder (enabling w) = Some (nextObject w) /\
  loggingEnabled (enabling w) = logging_enabled w /\
  logging_enabled (enabling w) = logging_enabled w /\
  sort_folder_contents (enabling w) = sort_folder_contents w /\
  nextObject (enabling w) = S (nextObject w).
Proof.
  unfold enabling, booted.
  destruct w, updatingPages0, logging_enabled0, sort_folder_contents0;
    exec_core; repeat split.
Qed.

(** The logging flag of the module follows its key while the extension is
    enabled. *)
Lemma Moves_tracks ev w w' :
  Moves ev w w' ->
  (is_Some (gridReorder w) -> loggingEnabled w = logging_enabled w) ->
  is_Some (gridReorder w') -> loggingEnabled w' = logging_enabled w'.
Proof.
  intros Hm IH Hs. destruct Hm as
    [ev w Hg Hq|ev w this c Hg Hsig Hc Hwhy
    |ev w this c Hg Hsig Htr Hc Hb Hu|n w Hn|n w this c Hg Hc Hn Hre
    |w this c Hg Hc|b w|w Hg Hre].
  - rewrite gridReorder_hostWrite, Hg in Hs. destruct Hs; discriminate.
  - apply arrive_tracks, IH. rewrite Hg. eauto.
  - apply (environment_tracks _ _ (environment_started _ _ _ _)).
    apply arrive_tracks, IH. rewrite Hg. eauto.
  - apply IH, Hs.
  - apply (environment_tracks _ _ (environment_finished _ _ _ _)).
    apply IH. rewrite Hg. eauto.
  - rewrite gridReorder_tornDown in Hs. destruct Hs; discriminate.
  - apply IH, Hs.
  - destruct (enabling_fields w) as (_ & -> & -> & _). reflexivity.
Qed.

(** X3.  In every world the shell can reach with the extension enabled,
    the module variable [loggingEnabled] equals the value of the
    ['logging-enabled'] key: [enable()] reads the key, and the handler of
    the extension's settings reads it again on every change. *)
Theorem loggingEnabled_follows_key (w : World) :
  Reachable w -> is_Some (gridReorder w) ->
  loggingEnabled w = logging_enabled w.
Proof.
  induction 1 as [w Hi|w ev w' Hr IH Hal Hst].
  - destruct Hi as (Hg & _). rewrite Hg. intros [x Hx]. discriminate.
  - apply (Moves_tracks ev w w' (Reachable_Moves ev w w' Hr Hal Hst) IH).
Qed.

Lemma loggingEnabled_follows_key_witness :
  Reachable enabledShell /\ is_Some (gridReorder enabledShell) /\
  loggingEnabled enabledShell = logging_enabled enabledShell.
Proof.
  assert (Hs : is_Some (gridReorder enabledShell)) by (exists 0; reflexivity).
  split; [exact enabledShell_reachable|]. split; [exact Hs|].
  exact (loggingEnabled_follows_key enabledShell enabledShell_reachable Hs).
Defined.

(** X6.  From every world the shell can reach, every event the shell can
    deliver runs to its end: no handler, no timeout closure, neither
    [enable()] nor [disable()] raises, on any host. *)
Theorem reachable_events_never_raise (w : World) (ev : Event) :
  Reachable w -> allowed ev w = true ->
  exists w', step ev w = Ok tt w' /\ Reachable w'.
Proof.
  intros Hr Hal.
  destruct (step_Inv ev w (Reachable_Inv w Hr) Hal) as (w' & Hst & _).
  exists w'. split; [exact Hst|]. apply (reach_step w ev w' Hr Hal Hst).
Qed.

Lemma reachable_events_never_raise_witness :
  Reachable enabledShell /\ allowed DisableExtension enabledShell = true /\
  exists w', step DisableExtension enabledShell = Ok tt w' /\ Reachable w'.
Proof.
  split; [exact enabledShell_reachable|]. split; [reflexivity|].
  exact (reachable_events_never_raise enabledShell DisableExtension
           enabledShell_reachable eq_refl).
Defined.

(** X4.  A timeout source is pending only while the extension is enabled,
    and then it is the only one: it carries the closure of the live
    instance, that instance holds the lock, and its handle field names the
    source. *)
Theorem pending_source_is_the_one_in_flight (w : World) (n : nat)
    (x : nat * Callback) :
  Reachable w -> sources w !! n = Some x ->
  exists this h,
    gridReorder w = Some this /\
    x = (100, CbReorderTimeout this) /\
    sources w = {[ n := x ]} /\
    heap w !! this = Some (instance h true (Id n)).
Proof.
  intros Hr Hn. destruct (Reachable_Inv w Hr) as [Hd|[this He]].
  - destruct Hd as (_ & _ & Hs & _). rewrite Hs, lookup_empty in Hn.
    discriminate.
  - destruct He as (Hg & h & busy & t & Hc & _ & _ & _ & Hfl).
    unfold Flight in Hfl. destruct t as [| |n0].
    1,2: destruct Hfl as [_ Hs]; rewrite Hs, lookup_empty in Hn;
         discriminate.
    destruct Hfl as [-> Hs]. rewrite Hs in Hn.
    apply lookup_singleton_Some in Hn as [<- <-].
    exists this, h. repeat split; assumption.
Qed.

Lemma pending_source_is_the_one_in_flight_witness :
  Reachable enabledShell /\
  sources enabledShell !! 1 = Some (100, CbReorderTimeout 0) /\
  exists this h,
    gridReorder enabledShell = Some this /\
    (100, CbReorderTimeout 0) = (100, CbReorderTimeout this) /\
    sources enabledShell = {[ 1 := (100, CbReorderTimeout 0) ]} /\
    heap enabledShell !! this = Some (instance h true (Id 1)).
Proof.
  assert (Hn : sources enabledShell !! 1 = Some (100, CbReorderTimeout 0))
    by (vm_compute; reflexivity).
  split; [exact enabledShell_reachable|]. split; [exact Hn|].
  exact (pending_source_is_the_one_in_flight enabledShell 1 _
           enabledShell_reachable Hn).
Defined.


(** *** Counting what was observed *)

Lemma environment_switches w w' :
  environment w' = environment w ->
  loggingEnabled w' = loggingEnabled w /\
  logging_enabled w' = logging_enabled w /\
  sort_folder_contents w' = sort_folder_contents w.
Proof.
  unfold environment. intros He. injection He as El Ek Es _ _ _. auto.
Qed.

Lemma filter_added (f : Obs -> bool) (t added : list Obs) :
  List.filter f added = [] ->
  List.filter f (t ++ added) = List.filter f t.
Proof. intros H. rewrite List.filter_app, H. apply app_nil_r. Qed.

Lemma trace_started this logText c v :
  trace (started this logText c v) =
    trace v ++
    ((if loggingEnabled v then [Logged logText] else []) ++
     (if sort_folder_contents v
      then (if loggingEnabled v
            then [Logged "Reordering folder contents"] else []) ++
           [ReorderedFolderContents]
      else [])) /\
  folderStore (started this logText c v) =
    (if sort_folder_contents v
     then reorderFolderContents (folderStore v) else folderStore v) /\
  sort_folder_contents (started this logText c v) = sort_folder_contents v.
Proof.
  destruct v, loggingEnabled0, sort_folder_contents0; exec_core;
    rewrite <- ?app_assoc, ?app_nil_r; repeat split.
Qed.

Lemma trace_tornDown this c w :
  trace (tornDown this c w) =
    trace w ++
    (if loggingEnabled w
     then [Logged "Disconnected from listeners";
           Logged "Unpatched item comparison"; Logged "Unpatched redisplay"]
     else []) /\
  folderStore (tornDown this c w) = folderStore w /\
  environment (tornDown this c w) = environment w.
Proof.
  destruct w, loggingEnabled0; exec_core;
    rewrite <- ?app_assoc, ?app_nil_r; repeat split.
Qed.

Lemma trace_booted w :
  trace (booted w) =
    trace w ++
    Invoked (appDisplay_redisplay w) ::
    (if logging_enabled w
     then [Logged "Patched item comparison"; Logged "Patched redisplay";
           Logged "Connected to listeners"]
     else []) /\
  folderStore (booted w) = folderStore w /\
  loggingEnabled (booted w) = logging_enabled w /\
  sort_folder_contents (booted w) = sort_folder_contents w.
Proof.
  unfold booted.
  destruct w, logging_enabled0; exec_core;
    rewrite <- ?app_assoc; repeat split.
Qed.

Lemma trace_arrive ev w :
  trace (arrive ev w) = trace w /\ folderStore (arrive ev w) = folderStore w /\
  trace (hostWrite ev w) = trace w /\
  folderStore (hostWrite ev w) = folderStore w.
Proof. destruct ev; repeat split; destruct k; reflexivity. Qed.

(** What each transition appends to the trace, and what it does to the
    folder store. *)
Lemma Moves_trace ev w w' :
  Moves ev w w' ->
  exists added,
    trace w' = trace w ++ added /\
    (isTimeout ev = false ->
     List.filter (fun o => bool_decide (o = Invoked ReloadAppGrid)) added
       = []) /\
    (forall n, ev = TimeoutElapsed n ->
     added = [] \/
     (added = [Invoked ReloadAppGrid] /\ is_Some (sources w !! n))) /\
    ((is_Some (gridReorder w) -> loggingEnabled w = logging_enabled w) ->
     logging_enabled w' = false -> List.filter isLogged added = []) /\
    (sort_folder_contents w' = false -> folderStore w' = folderStore w).
Proof.
  intros Hm. destruct Hm as
    [ev w Hg Hq|ev w this c Hg Hsig Hc Hwhy
    |ev w this c Hg Hsig Htr Hc Hb Hu|n w Hn|n w this c Hg Hc Hn Hre
    |w this c Hg Hc|b w|w Hg Hre].
  - destruct (trace_arrive ev w) as (_ & _ & Et & Ef).
    exists []. rewrite app_nil_r. repeat split; auto.
  - destruct (trace_arrive ev w) as (Et & Ef & _ & _).
    exists []. rewrite app_nil_r. repeat split; auto.
  - destruct (trace_arrive ev w) as (Et & Ef & _ & _).
    destruct (trace_started this (logTextOf ev) c (arrive ev w))
      as (Ets & Efs & Ess).
    eexists. split; [rewrite Ets, Et; reflexivity|].
    split; [|split; [|split]].
    + intros _.
      destruct (loggingEnabled (arrive ev w)),
        (sort_folder_contents (arrive ev w)); reflexivity.
    + intros n ->. discriminate Hsig.
    + intros IH Hk.
      assert (Hl : loggingEnabled (arrive ev w) = false).
      { rewrite arrive_tracks.
        - destruct (environment_switches _ _
                      (environment_started this (logTextOf ev) c
                         (arrive ev w))) as (_ & Ek & _).
          congruence.
        - apply IH. rewrite Hg. eauto. }
      rewrite Hl. destruct (sort_folder_contents (arrive ev w)); reflexivity.
    + intros Hs. rewrite Efs, Ef. rewrite Ess in Hs. rewrite Hs. reflexivity.
  - exists []. rewrite app_nil_r. repeat split; auto.
  - exists [Invoked ReloadAppGrid]. unfold finished.
    destruct w. exec_hyps. subst. exec_core.
    repeat split; try discriminate; eauto.
    intros n0 [= <-]. right. split; [reflexivity|]. rewrite Hn. eauto.
  - destruct (trace_tornDown this c w) as (Et & Ef & Ee).
    eexists. split; [exact Et|]. split; [|split; [|split]].
    + intros _. destruct (loggingEnabled w); reflexivity.
    + intros n Hev. discriminate Hev.
    + intros IH Hk. rewrite IH by (rewrite Hg; eauto).
      destruct (environment_switches _ _ Ee) as (_ & Ek & _).
      rewrite <- Ek, Hk. reflexivity.
    + intros _. exact Ef.
  - exists []. rewrite app_nil_r. repeat split; auto.
  - destruct (trace_booted w) as (Et & Ef & El & Es).
    destruct (enabling_fields w) as (_ & _ & Ek & Ess & _).
    unfold enabling in *. destruct (updatingPages w).
    + eexists. split; [exact Et|]. rewrite Hre.
      split; [|split; [|split]].
      * intros _. destruct (logging_enabled w); reflexivity.
      * intros n Hev. discriminate Hev.
      * intros _ Hk. rewrite Ek in Hk. rewrite Hk. reflexivity.
      * intros _. exact Ef.
    + destruct (trace_started (nextObject w) "Reordering app grid"
                  (instance (nextHandler w) false Undefined) (booted w))
        as (Ets & Efs & _).
      eexists. split.
      { rewrite Ets, Et, <- app_assoc. reflexivity. }
      rewrite Hre, El, Es. split; [|split; [|split]].
      * intros _.
        destruct (logging_enabled w), (sort_folder_contents w); reflexivity.
      * intros n Hev. discriminate Hev.
      * intros _ Hk. rewrite Ek in Hk. rewrite Hk.
        destruct (sort_folder_contents w); reflexivity.
      * intros Hs. rewrite Ess in Hs. rewrite Efs, Es, Hs. exact Ef.
Qed.


(** X7.  No event makes the extension rewrite the folder contents while
    the ['sort-folder-contents'] key is off: whenever the key is off after
    an event, the folder store is what it was before the event. *)
Theorem folders_untouched_while_sorting_is_off (w : World) (ev : Event)
    (w' : World) :
  Reachable w -> allowed ev w = true -> step ev w = Ok tt w' ->
  sort_folder_contents w' = false ->
  folderStore w' = folderStore w.
Proof.
  intros Hr Hal Hst Hs.
  destruct (Moves_trace ev w w' (Reachable_Moves ev w w' Hr Hal Hst))
    as (added & _ & _ & _ & _ & Hf).
  apply Hf, Hs.
Qed.

Lemma folders_untouched_while_sorting_is_off_witness :
  Reachable idleShell /\
  allowed (ExtensionSettingChanged (SortFolderContents false)) idleShell
    = true /\
  step (ExtensionSettingChanged (SortFolderContents false)) idleShell =
    Ok tt (worldOf (step (ExtensionSettingChanged (SortFolderContents false))
                      idleShell)) /\
  sort_folder_contents
    (worldOf (step (ExtensionSettingChanged (SortFolderContents false))
                idleShell)) = false /\
  folderStore
    (worldOf (step (ExtensionSettingChanged (SortFolderContents false))
                idleShell)) = folderStore idleShell.
Proof.
  assert (Hst :
    step (ExtensionSettingChanged (SortFolderContents false)) idleShell =
    Ok tt (worldOf (step (ExtensionSettingChanged (SortFolderContents false))
                      idleShell))) by (vm_compute; reflexivity).
  assert (Hs : sort_folder_contents
    (worldOf (step (ExtensionSettingChanged (SortFolderContents false))
                idleShell)) = false) by (vm_compute; reflexivity).
  split; [exact idleShell_reachable|]. split; [reflexivity|].
  split; [exact Hst|]. split; [exact Hs|].
  exact (folders_untouched_while_sorting_is_off idleShell
           (ExtensionSettingChanged (SortFolderContents false)) _
           idleShell_reachable eq_refl Hst Hs).
Defined.

(** X8.  No event makes the extension write a log line while the
    ['logging-enabled'] key is off: whenever the key is off after an event,
    the log lines in the trace are those from before the event.  This
    includes the event that switches the key off, [enable()] and
    [disable()]. *)
Theorem nothing_logged_while_logging_is_off (w : World) (ev : Event)
    (w' : World) :
  Reachable w -> allowed ev w = true -> step ev w = Ok tt w' ->
  logging_enabled w' = false ->
  logs w' = logs w.
Proof.
  intros Hr Hal Hst Hk.
  destruct (Moves_trace ev w w' (Reachable_Moves ev w w' Hr Hal Hst))
    as (added & Et & _ & _ & Hl & _).
  unfold logs. rewrite Et. apply filter_added.
  apply Hl; [|exact Hk]. apply loggingEnabled_follows_key, Hr.
Qed.

Lemma nothing_logged_while_logging_is_off_witness :
  Reachable idleShell /\
  allowed (ExtensionSettingChanged (LoggingEnabled false)) idleShell = true /\
  step (ExtensionSettingChanged (LoggingEnabled false)) idleShell =
    Ok tt (worldOf (step (ExtensionSettingChanged (LoggingEnabled false))
                      idleShell)) /\
  logging_enabled
    (worldOf (step (ExtensionSettingChanged (LoggingEnabled false))
                idleShell)) = false /\
  logs (worldOf (step (ExtensionSettingChanged (LoggingEnabled false))
                   idleShell)) = logs idleShell.
Proof.
  assert (Hst :
    step (ExtensionSettingChanged (LoggingEnabled false)) idleShell =
    Ok tt (worldOf (step (ExtensionSettingChanged (LoggingEnabled false))
                      idleShell))) by (vm_compute; reflexivity).
  assert (Hk : logging_enabled
    (worldOf (step (ExtensionSettingChanged (LoggingEnabled false))
                idleShell)) = false) by (vm_compute; reflexivity).
  split; [exact idleShell_reachable|]. split; [reflexivity|].
  split; [exact Hst|]. split; [exact Hk|].
  exact (nothing_logged_while_logging_is_off idleShell
           (ExtensionSettingChanged (LoggingEnabled false)) _
           idleShell_reachable eq_refl Hst Hk).
Defined.

(** X9.  The grid is reloaded only by the timeout closure: an event either
    leaves the number of [reloadAppGrid] calls as it was, or it is the
    dispatch of a pending timeout source and adds exactly one.  No signal
    handler, and neither [enable()] nor [disable()], reloads the grid
    itself. *)
Theorem grid_reloads_only_on_timeout (w : World) (ev : Event) (w' : World) :
  Reachable w -> allowed ev w = true -> step ev w = Ok tt w' ->
  reloads w' = reloads w \/
  exists n,
    ev = TimeoutElapsed n /\ is_Some (sources w !! n) /\
    reloads w' = S (reloads w).
Proof.
  intros Hr Hal Hst.
  destruct (Moves_trace ev w w' (Reachable_Moves ev w w' Hr Hal Hst))
    as (added & Et & Hnt & Ht & _ & _).
  unfold reloads. rewrite Et.
  destruct (isTimeout ev) eqn:Hev.
  - destruct ev; try discriminate Hev.
    destruct (Ht n eq_refl) as [->|[-> Hn]].
    + left. rewrite app_nil_r. reflexivity.
    + right. exists n. split; [reflexivity|]. split; [exact Hn|].
      rewrite List.filter_app, List.length_app. cbn [List.filter].
      rewrite bool_decide_eq_true_2 by reflexivity. cbn [length]. lia.
  - left. rewrite (filter_added _ _ _ (Hnt eq_refl)). reflexivity.
Qed.

Lemma grid_reloads_only_on_timeout_witness :
  Reachable enabledShell /\ allowed (TimeoutElapsed 1) enabledShell = true /\
  step (TimeoutElapsed 1) enabledShell = Ok tt idleShell /\
  (reloads idleShell = reloads enabledShell \/
   exists n,
     TimeoutElapsed 1 = TimeoutElapsed n /\
     is_Some (sources enabledShell !! n) /\
     reloads idleShell = S (reloads enabledShell)).
Proof.
  assert (Hst : step (TimeoutElapsed 1) enabledShell = Ok tt idleShell)
    by (vm_compute; reflexivity).
  split; [exact enabledShell_reachable|]. split; [reflexivity|].
  split; [exact Hst|].
  exact (grid_reloads_only_on_timeout enabledShell (TimeoutElapsed 1) _
           enabledShell_reachable eq_refl Hst).
Defined.


(** *** Instances *)

(** What a transition does to the heap: nothing, an update of the live
    instance, or the creation of a new one at the next free number. *)
Lemma Moves_heap ev w w' :
  Moves ev w w' ->
  (heap w' = heap w /\ nextObject w' = nextObject w /\
   gridReorder w' = gridReorder w) \/
  (exists this c c',
     gridReorder w = Some this /\ heap w !! this = Some c /\
     heap w' = <[this := c']> (heap w) /\ nextObject w' = nextObject w /\
     (gridReorder w' = Some this \/ gridReorder w' = None)) \/
  (exists c',
     heap w' = <[nextObject w := c']> (heap w) /\
     nextObject w' = S (nextObject w) /\
     gridReorder w' = Some (nextObject w)).
Proof.
  intros Hm. destruct Hm as
    [ev w Hg Hq|ev w this c Hg Hsig Hc Hwhy
    |ev w this c Hg Hsig Htr Hc Hb Hu|n w Hn|n w this c Hg Hc Hn Hre
    |w this c Hg Hc|b w|w Hg Hre].
  - left. destruct ev; try (repeat split; fail).
    destruct k; repeat split.
  - left. destruct ev; try (repeat split; fail).
    destruct k; repeat split.
  - right. left.
    exists this, c,
      (set_reorderGridTimeoutId (Id (nextSource (arrive ev w)))
         (set_currentlyUpdating true c)).
    split; [exact Hg|]. split; [exact Hc|].
    assert (Ha : heap (arrive ev w) = heap w /\
                 nextObject (arrive ev w) = nextObject w /\
                 gridReorder (arrive ev w) = gridReorder w).
    { destruct ev; try (repeat split; fail). destruct k; repeat split. }
    destruct Ha as (Eh & En & Eg). rewrite <- Eh, <- En, <- Hg, <- Eg.
    generalize (arrive ev w). intros v.
    destruct v, loggingEnabled0, sort_folder_contents0;
      (split; [reflexivity|]); split; try reflexivity; left; reflexivity.
  - left. repeat split.
  - right. left.
    exists this, c,
      (set_reorderGridTimeoutId Null (set_currentlyUpdating false c)).
    split; [exact Hg|]. split; [exact Hc|].
    destruct w. exec_hyps. subst.
    split; [reflexivity|]. split; [reflexivity|]. left. reflexivity.
  - right. left. exists this, c, (set_injectionManager [] c).
    split; [exact Hg|]. split; [exact Hc|].
    destruct w, loggingEnabled0;
      (split; [reflexivity|]); split; try reflexivity; right; reflexivity.
  - left. repeat split.
  - right. right.
    exists (instance (nextHandler w) (negb (updatingPages w))
              (if updatingPages w then Undefined else Id (nextSource w))).
    unfold enabling, booted.
    destruct w, updatingPages0, logging_enabled0, sort_folder_contents0;
      exec; repeat split.
Qed.

Lemma Reachable_bound w i :
  Reachable w -> is_Some (heap w !! i) -> i < nextObject w.
Proof.
  intros Hr. revert i.
  induction Hr as [w Hi|w ev w' Hr IH Hal Hst]; intros i Hi'.
  - destruct Hi as (_ & Hh & _). rewrite Hh, lookup_empty in Hi'.
    destruct Hi'; discriminate.
  - destruct (Moves_heap ev w w' (Reachable_Moves ev w w' Hr Hal Hst))
      as [(Eh & En & _)|[(this & c & c' & _ & Hc & Eh & En & _)
                        |(c' & Eh & En & _)]].
    + rewrite En. apply IH. rewrite <- Eh. exact Hi'.
    + rewrite En. rewrite Eh in Hi'.
      destruct (decide (this = i)) as [<-|Hne].
      * apply IH. rewrite Hc. eauto.
      * rewrite lookup_insert_ne in Hi' by exact Hne. apply IH, Hi'.
    + rewrite En. rewrite Eh in Hi'.
      destruct (decide (nextObject w = i)) as [<-|Hne]; [lia|].
      rewrite lookup_insert_ne in Hi' by exact Hne.
      specialize (IH i Hi'). lia.
Qed.

(** X10.  An instance that the extension manager no longer refers to is
    never touched again: whatever event comes next, also a new
    [enable()], its fields stay as they are and the manager does not take
    it up again.  The lock a torn-down instance may still hold cannot block
    a later instance. *)
Theorem dropped_instance_is_never_touched (w : World) (j : nat)
    (c : AppGridExtension) (ev : Event) (w' : World) :
  Reachable w -> heap w !! j = Some c -> gridReorder w <> Some j ->
  allowed ev w = true -> step ev w = Ok tt w' ->
  heap w' !! j = Some c /\ gridReorder w' <> Some j.
Proof.
  intros Hr Hj Hg Hal Hst.
  pose proof (Reachable_bound w j Hr ltac:(rewrite Hj; eauto)) as Hb.
  destruct (Moves_heap ev w w' (Reachable_Moves ev w w' Hr Hal Hst))
    as [(Eh & _ & Eg)|[(this & c0 & c' & Hg0 & _ & Eh & _ & Eg)
                      |(c' & Eh & _ & Eg)]].
  - rewrite Eh, Eg. split; assumption.
  - assert (Hne : this <> j) by (intros ->; apply Hg, Hg0).
    rewrite Eh, lookup_insert_ne by exact Hne. split; [exact Hj|].
    destruct Eg as [->| ->]; congruence.
  - assert (Hne : nextObject w <> j) by lia.
    rewrite Eh, lookup_insert_ne by exact Hne. split; [exact Hj|].
    rewrite Eg. congruence.
Qed.

Lemma tornShell_reachable : Reachable tornShell.
Proof.
  apply (reach_step enabledShell DisableExtension).
  - exact enabledShell_reachable.
  - reflexivity.
  - vm_compute. reflexivity.
Qed.

Lemma dropped_instance_is_never_touched_witness :
  Reachable tornShell /\
  heap tornShell !! 0 =
    Some (set_injectionManager [] (instance 1 true (Id 1))) /\
  gridReorder tornShell <> Some 0 /\
  allowed EnableExtension tornShell = true /\
  step EnableExtension tornShell =
    Ok tt (worldOf (step EnableExtension tornShell)) /\
  heap (worldOf (step EnableExtension tornShell)) !! 0 =
    Some (set_injectionManager [] (instance 1 true (Id 1))) /\
  gridReorder (worldOf (step EnableExtension tornShell)) <> Some 0.
Proof.
  assert (Hj : heap tornShell !! 0 =
               Some (set_injectionManager [] (instance 1 true (Id 1))))
    by (vm_compute; reflexivity).
  assert (Hg : gridReorder tornShell <> Some 0) by (vm_compute; discriminate).
  assert (Hst : step EnableExtension tornShell =
                Ok tt (worldOf (step EnableExtension tornShell)))
    by (vm_compute; reflexivity).
  split; [exact tornShell_reachable|]. split; [exact Hj|].
  split; [exact Hg|]. split; [reflexivity|]. split; [exact Hst|].
  exact (dropped_instance_is_never_touched tornShell 0 _ EnableExtension _
           tornShell_reachable Hj Hg eq_refl Hst).
Defined.

(** *** Triggers while the host updates its pages *)

Lemma run_signals_updating this h c burst : forall w,
  handlers w = listeners this h -> heap w !! this = Some c ->
  updatingPages w = true -> forallb isSignal burst = true ->
  exists w1, run burst w = Ok tt w1 /\ frame w1 = frame w.
Proof.
  induction burst as [|ev burst IH]; intros w Hh Hc Hu Hall.
  - exists w. split; reflexivity.
  - cbn [forallb] in Hall. apply andb_prop in Hall as [Hev Hall].
    pose proof (frame_arrive ev w Hev) as Hf.
    destruct (frame_fields _ _ Hf) as (_ & Eh & _ & _ & Ehs & _).
    assert (Eu : updatingPages (arrive ev w) = true).
    { rewrite <- Hu. destruct ev; try reflexivity. destruct k; reflexivity. }
    destruct (IH (arrive ev w)) as (w1 & Hrun & Hf1); try assumption.
    { rewrite Ehs. exact Hh. }
    { rewrite Eh. exact Hc. }
    exists w1. split; [|congruence].
    cbn [run]. erewrite bind_Ok; [exact Hrun|].
    rewrite (step_signal_wired w this h ev Hh Hev).
    destruct (isTrigger ev); [|reflexivity].
    apply (reorderGrid_busy _ this c); [|right; exact Eu].
    rewrite Eh. exact Hc.
Qed.

(** X5.  While the host is updating its pages every trigger is dropped,
    whether a reorder is in flight or not: a burst of signal events leaves
    the controller, the timeout sources, the folders and the trace as they
    were.  No source is added for later, so a trigger that arrives in that
    time is lost unless another one follows. *)
Theorem triggers_lost_while_host_updates_pages (w : World) (this : nat)
    (burst : list Event) :
  Reachable w -> gridReorder w = Some this -> updatingPages w = true ->
  forallb isSignal burst = true ->
  exists w1,
    run burst w = Ok tt w1 /\ frame w1 = frame w /\
    sources w1 = sources w /\ trace w1 = trace w /\ heap w1 = heap w.
Proof.
  intros Hr Hg Hu Hall.
  destruct (Reachable_Enabled w this Hr Hg)
    as (_ & h & busy & t & Hc & Hh & _).
  destruct (run_signals_updating this h _ burst w Hh Hc Hu Hall)
    as (w1 & Hrun & Hf).
  destruct (frame_fields _ _ Hf) as (_ & Eh & _ & _ & _ & Es & Et).
  exists w1. auto 10.
Qed.

Lemma updatingShell_reachable : Reachable updatingShell.
Proof.
  apply (reach_step idleShell (UpdatingPagesChanged true)).
  - exact idleShell_reachable.
  - reflexivity.
  - reflexivity.
Qed.

Lemma triggers_lost_while_host_updates_pages_witness :
  Reachable updatingShell /\ gridReorder updatingShell = Some 0 /\
  updatingPages updatingShell = true /\
  forallb isSignal [ItemDragEnded; StateValueChanged APP_GRID] = true /\
  exists w1,
    run [ItemDragEnded; StateValueChanged APP_GRID] updatingShell
      = Ok tt w1 /\
    frame w1 = frame updatingShell /\
    sources w1 = sources updatingShell /\ trace w1 = trace updatingShell /\
    heap w1 = heap updatingShell.
Proof.
  split; [exact updatingShell_reachable|]. split; [reflexivity|].
  split; [reflexivity|]. split; [reflexivity|].
  exact (triggers_lost_while_host_updates_pages updatingShell 0
           [ItemDragEnded; StateValueChanged APP_GRID]
           updatingShell_reachable eq_refl eq_refl eq_refl).
Defined.


(** *** Patching and unpatching *)

(** X1.  [patchShell] followed by [unpatchShell] is a round trip: for an
    instance whose injection manager has saved nothing yet, whatever two
    functions the slots of the grid display held before are back in place
    afterwards, the saved-method table is empty again, and the world
    differs from the one before only by the four log lines.  In between
    both slots hold the extension's functions. *)
Theorem patchShell_unpatchShell_round_trip (v : World) (i : nat)
    (c : AppGridExtension) :
  heap v !! i = Some c -> _injectionManager c = [] ->
  exists v1,
    patchShell i v = Ok tt v1 /\
    appDisplay_compareItems v1 = PatchedCompareItems /\
    appDisplay_redisplay v1 = ReloadAppGrid /\
    unpatchShell i v1 =
      Ok tt
        (logged "Unpatched redisplay"
           (logged "Unpatched item comparison"
              (logged "Patched redisplay"
                 (logged "Patched item comparison" v)))).
Proof.
  intros Hc Ht. destruct v, c. exec_hyps. subst.
  destruct loggingEnabled0.
  all: eexists; split;
    [ repeat first [ progress exec_core | rewrite Hc
                   | rewrite lookup_insert_eq | rewrite insert_insert_eq
                   | rewrite bool_decide_eq_false_2 by discriminate ];
      reflexivity |].
  all: split; [reflexivity|]; split; [reflexivity|].
  all: repeat first [ progress exec_core
                    | rewrite lookup_insert_eq | rewrite insert_insert_eq
                    | rewrite bool_decide_eq_false_2 by discriminate ].
  all: rewrite (insert_id _ _ _ Hc); rewrite <- ?app_assoc; reflexivity.
Qed.

Lemma patchShell_unpatchShell_round_trip_witness :
  heap tornShell !! 0 =
    Some (set_injectionManager [] (instance 1 true (Id 1))) /\
  _injectionManager (set_injectionManager [] (instance 1 true (Id 1))) = [] /\
  exists v1,
    patchShell 0 tornShell = Ok tt v1 /\
    appDisplay_compareItems v1 = PatchedCompareItems /\
    appDisplay_redisplay v1 = ReloadAppGrid /\
    unpatchShell 0 v1 =
      Ok tt
        (logged "Unpatched redisplay"
           (logged "Unpatched item comparison"
              (logged "Patched redisplay"
                 (logged "Patched item comparison" tornShell)))).
Proof.
  assert (Hj : heap tornShell !! 0 =
               Some (set_injectionManager [] (instance 1 true (Id 1))))
    by (vm_compute; reflexivity).
  split; [exact Hj|]. split; [reflexivity|].
  exact (patchShell_unpatchShell_round_trip tornShell 0 _ Hj eq_refl).
Defined.

(** *** Enabling *)

(** X2.  [enable()] in a shell where the extension is off runs to its end
    and leaves a new instance, numbered with the next free object number,
    as the only subscriber: the logging flag is read from its key, the
    redisplay issued before patching reaches the host's own function and
    is the first thing observed, both slots are patched, and the handlers
    are exactly the seven connections of [startListeners].  The first
    reorder is in flight, with its timeout source pending, unless the host
    is updating its pages; then no reorder is started and no source is
    pending. *)
Theorem enable_boots_one_instance (w : World) :
  Reachable w -> gridReorder w = None ->
  exists w' rest,
    enable w = Ok tt w' /\
    gridReorder w' = Some (nextObject w) /\
    loggingEnabled w' = logging_enabled w /\
    trace w' = trace w ++ Invoked HostRedisplay :: rest /\
    appDisplay_compareItems w' = PatchedCompareItems /\
    appDisplay_redisplay w' = ReloadAppGrid /\
    handlers w' = listeners (nextObject w) (nextHandler w) /\
    heap w' !! nextObject w =
      Some (instance (nextHandler w) (negb (updatingPages w))
              (if updatingPages w then Undefined else Id (nextSource w))) /\
    sources w' =
      (if updatingPages w then ∅
       else {[ nextSource w := (100, CbReorderTimeout (nextObject w)) ]}).
Proof.
  intros Hr Hg.
  destruct (Reachable_Inv w Hr) as [Hd|[this (Hg' & _)]]; [|congruence].
  destruct Hd as (_ & Hh & Hs & Hc & Hre).
  destruct (Moves_trace EnableExtension w (enabling w)
              (mv_enable w Hg Hre)) as (added & Et & _).
  exists (enabling w).
  assert (Hadd : exists rest, added = Invoked HostRedisplay :: rest).
  { destruct (trace_booted w) as (Etb & _).
    unfold enabling in Et. destruct (updatingPages w).
    - rewrite Etb, Hre in Et. apply app_inv_head in Et. eauto.
    - destruct (trace_started (nextObject w) "Reordering app grid"
                  (instance (nextHandler w) false Undefined) (booted w))
        as (Ets & _).
      rewrite Ets, Etb, Hre, <- app_assoc in Et. apply app_inv_head in Et.
      rewrite <- Et. cbn [app]. eauto. }
  destruct Hadd as (rest & ->). exists rest.
  split; [apply (enable_enabling w Hc Hre)|].
  destruct (enabling_fields w) as (Eg & El & _).
  split; [exact Eg|]. split; [exact El|]. split; [exact Et|].
  clear Et Eg El Hr rest.
  unfold enabling, booted.
  destruct w. exec_hyps. subst.
  destruct updatingPages0, logging_enabled0, sort_folder_contents0;
    exec; rewrite ?insert_empty; repeat split.
Qed.

Lemma enable_boots_one_instance_witness :
  Reachable tornShell /\ gridReorder tornShell = None /\
  exists w' rest,
    enable tornShell = Ok tt w' /\
    gridReorder w' = Some (nextObject tornShell) /\
    loggingEnabled w' = logging_enabled tornShell /\
    trace w' = trace tornShell ++ Invoked HostRedisplay :: rest /\
    appDisplay_compareItems w' = PatchedCompareItems /\
    appDisplay_redisplay w' = ReloadAppGrid /\
    handlers w' = listeners (nextObject tornShell) (nextHandler tornShell) /\
    heap w' !! nextObject tornShell =
      Some (instance (nextHandler tornShell)
              (negb (updatingPages tornShell))
              (if updatingPages tornShell then Undefined
               else Id (nextSource tornShell))) /\
    sources w' =
      (if updatingPages tornShell then ∅
       else {[ nextSource tornShell :=
                 (100, CbReorderTimeout (nextObject tornShell)) ]}).
Proof.
  split; [exact tornShell_reachable|]. split; [reflexivity|].
  exact (enable_boots_one_instance tornShell tornShell_reachable eq_refl).
Defined.

(** *** The logging switch *)

(** X11.  The handler of the extension's settings reads the logging key
    before it asks for the reorder, so a change of that key already governs
    the reorder it triggers: when the key is switched on, the reorder
    started by that very change is logged, and when it is switched off it
    is not. *)
Theorem logging_switch_governs_its_own_reorder (w : World) (this : nat)
    (c : AppGridExtension) (b : bool) :
  Reachable w -> gridReorder w = Some this ->
  heap w !! this = Some c -> _currentlyUpdating c = false ->
  updatingPages w = false ->
  exists w',
    step (ExtensionSettingChanged (LoggingEnabled b)) w = Ok tt w' /\
    loggingEnabled w' = b /\
    trace w' =
      trace w ++
      ((if b
        then [Logged "Extension gsettings values changed, triggering reorder"]
        else []) ++
       (if sort_folder_contents w
        then (if b then [Logged "Reordering folder contents"] else []) ++
             [ReorderedFolderContents]
        else [])).
Proof.
  intros Hr Hg Hc Hb Hu.
  destruct (Reachable_Enabled w this Hr Hg) as (_ & h & _ & _ & _ & Hh & _).
  exists (started this
            "Extension gsettings values changed, triggering reorder" c
            (arrive (ExtensionSettingChanged (LoggingEnabled b)) w)).
  split.
  - rewrite (step_signal_wired w this h
               (ExtensionSettingChanged (LoggingEnabled b)) Hh eq_refl).
    cbn [isTrigger isSignal logTextOf].
    apply reorderGrid_idle; [exact Hc|exact Hb|exact Hu].
  - destruct (trace_started this
                "Extension gsettings values changed, triggering reorder" c
                (arrive (ExtensionSettingChanged (LoggingEnabled b)) w))
      as (Et & _).
    destruct (environment_switches _ _
                (environment_started this
                   "Extension gsettings values changed, triggering reorder"
                   c (arrive (ExtensionSettingChanged (LoggingEnabled b)) w)))
      as (El & _).
    split; [rewrite El; reflexivity|]. rewrite Et. reflexivity.
Qed.

Lemma logging_switch_governs_its_own_reorder_witness :
  Reachable idleShell /\ gridReorder idleShell = Some 0 /\
  heap idleShell !! 0 = Some (instance 1 false Null) /\
  _currentlyUpdating (instance 1 false Null) = false /\
  updatingPages idleShell = false /\
  exists w',
    step (ExtensionSettingChanged (LoggingEnabled false)) idleShell
      = Ok tt w' /\
    loggingEnabled w' = false /\
    trace w' =
      trace idleShell ++
      ((if false
        then [Logged "Extension gsettings values changed, triggering reorder"]
        else []) ++
       (if sort_folder_contents idleShell
        then (if false then [Logged "Reordering folder contents"] else []) ++
             [ReorderedFolderContents]
        else [])).
Proof.
  assert (Hc : heap idleShell !! 0 = Some (instance 1 false Null))
    by (vm_compute; reflexivity).
  split; [exact idleShell_reachable|]. split; [reflexivity|].
  split; [exact Hc|]. split; [reflexivity|]. split; [reflexivity|].
  exact (logging_switch_governs_its_own_reorder idleShell 0 _ false
           idleShell_reachable eq_refl Hc eq_refl eq_refl).
Defined.


(** *** What is left when the extension is off *)

(** X12.  Whenever the extension is off, after any number of enable and
    disable cycles and whatever happened in between, nothing of it is left
    in the host: both slots of the grid display hold the host's own
    functions again, so a comparison is the host's comparison, and no
    handler and no timeout source remains. *)
Theorem disabled_shell_is_unpatched
    (helper : GridItem -> GridItem -> string -> list string -> Z)
    (host : GridItem -> GridItem -> Z)
    (w : World) (a b : GridItem) :
  Reachable w -> gridReorder w = None ->
  appDisplay_compareItems w = HostCompareItems /\
  appDisplay_redisplay w = HostRedisplay /\
  callCompareItems helper host w a b = Some (host a b) /\
  handlers w = [] /\ sources w = ∅.
Proof.
  intros Hr Hg.
  destruct (Reachable_Inv w Hr) as [Hd|[this (Hg' & _)]]; [|congruence].
  destruct Hd as (_ & Hh & Hs & Hc & Hre).
  split; [exact Hc|]. split; [exact Hre|].
  split; [unfold callCompareItems; rewrite Hc; reflexivity|].
  split; assumption.
Qed.

Lemma disabled_shell_is_unpatched_witness :
  Reachable tornShell /\ gridReorder tornShell = None /\
  appDisplay_compareItems tornShell = HostCompareItems /\
  appDisplay_redisplay tornShell = HostRedisplay /\
  callCompareItems (fun _ _ _ _ => 1%Z) (fun _ _ => (-1)%Z) tornShell
    (appItem "a" "A") (appItem "b" "B") = Some (-1)%Z /\
  handlers tornShell = [] /\ sources tornShell = ∅.
Proof.
  split; [exact tornShell_reachable|]. split; [reflexivity|].
  exact (disabled_shell_is_unpatched (fun _ _ _ _ => 1%Z)
           (fun _ _ => (-1)%Z) tornShell (appItem "a" "A") (appItem "b" "B")
           tornShell_reachable eq_refl).
Defined.

End ControllerFacts.
